(** * EmotionDetectionServer: the concurrent core, embedded and verified

    A shallow embedding of [python-server/EmotionDetectionServer.py]:
    the service object with its camera handle, running flag and current
    reading; camera start and stop; the detection loop and [process_frame];
    the status handler; the port fallback of [run_server]; and the reading
    store under its lock with interleaved readers and writers.

    External collaborators (OpenCV, DeepFace, Flask, the clock) are not code
    of the program: every call to one of them is answered by an input of the
    embedded function, so a theorem quantified over these inputs holds for
    whatever the collaborator does.  Logging is left out throughout. *)

From Stdlib Require Import ZArith QArith String Ascii List Bool Lia.
From stdpp Require Import base option list strings.

Local Open Scope string_scope.
Local Open Scope Z_scope.

(** ** Python values and dictionaries *)

(** The values the program stores in the dictionaries it serialises.
    Floating-point numbers are carried as rationals: the program never
    computes with them, it only copies them. *)
Inductive PyVal : Type :=
  | VStr (s : string)
  | VInt (n : Z)
  | VFloat (q : Q)
  | VBool (b : bool)
  | VScores (d : list (string * Q)).

(** A Python [dict] with string keys, in insertion order. *)
Abbreviation Dict := (list (string * PyVal)).

(** The latest emotion reading, [self.current_emotion_data]. *)
Abbreviation Reading := (list (string * PyVal)).

(** [d[k]] on an association list: the first binding of [k]. *)
Fixpoint assoc {V : Type} (k : string) (d : list (string * V)) : option V :=
  match d with
  | [] => None
  | (k', v) :: d' => if String.eqb k k' then Some v else assoc k d'
  end.

(** Outcome of a call that may raise a Python [Exception]; [Raise m] carries
    [str(e)]. *)
Inductive Exc (A : Type) : Type :=
  | Ok (a : A)
  | Raise (msg : string).
Arguments Ok {A} a.
Arguments Raise {A} msg.

(** ** Detected regions and the largest face *)

(** A row [x, y, w, h] of the array returned by [detectMultiScale]. *)
Record Region : Type := mkRegion
  { face_x : Z; face_y : Z; face_w : Z; face_h : Z }.

(** Two's-complement reduction to 32 bits: the rows are [int32], and so is
    the product of two of their entries. *)
Definition wrap32 (z : Z) : Z := (z + 2 ^ 31) mod 2 ^ 32 - 2 ^ 31.

(** [lambda face: face[2] * face[3]] *)
Definition face_area (face : Region) : Z := wrap32 (face_w face * face_h face).

(** The scan of Python's [max(iterable, key=...)]: the running best is
    replaced only by an element whose key is strictly greater. *)
Fixpoint max_from {A : Type} (key : A -> Z) (best : A) (l : list A) : A :=
  match l with
  | [] => best
  | a :: l' => if key best <? key a then max_from key a l' else max_from key best l'
  end.

(** [max(l, key=key)]; [None] stands for the [ValueError] on an empty
    sequence. *)
Definition py_max {A : Type} (key : A -> Z) (l : list A) : option A :=
  match l with
  | [] => None
  | a :: l' => Some (max_from key a l')
  end.

(** ** The collaborators' answers for one frame *)

(** One element of the list returned by [DeepFace.analyze]. *)
Record Analysis : Type := mkAnalysis
  { emotion : list (string * Q);      (* result[i]['emotion'] *)
    dominant_emotion : string }.      (* result[i]['dominant_emotion'] *)

(** What [DeepFace.analyze] returns when it does not raise. *)
Inductive AnalyzeResult : Type :=
  | RNone                             (* a falsy non-list value *)
  | RList (l : list Analysis).

(** Everything the outside world answers while one captured frame is
    processed. *)
Record Frame : Type := mkFrame
  { cvt_gray : Exc unit;              (* cv2.cvtColor(frame, COLOR_BGR2GRAY) *)
    detect : Exc (list Region);       (* face_cascade.detectMultiScale(...) *)
    analyze : Region -> Exc AnalyzeResult;
                                      (* crop, cvtColor and DeepFace.analyze *)
    now : string;                     (* datetime.now().isoformat() *)
    clock : Q }.                      (* time.time() *)

(** ** The service object *)

(** A [cv2.VideoCapture] handle. *)
Record Capture : Type := mkCapture { is_opened : bool }.

(** A [cv2.CascadeClassifier]. *)
Record Cascade : Type := mkCascade { cascade_empty : bool }.

(** Calls that act on the world outside the service object, recorded in
    the order they are made. *)
Inductive Effect : Type :=
  | EVideoCapture                     (* cv2.VideoCapture(0) *)
  | ERelease                          (* cap.release() *)
  | EThreadStart.                     (* detection_thread.start() *)

Record Server : Type := mkServer
  { port : Z;
    fallback_port : Z;
    cap : option Capture;
    face_cascade : option Cascade;
    detection_running : bool;
    current_emotion_data : Reading;
    frame_skip_count : Z;
    process_every_n_frames : Z;
    last_successful_detection : Q;
    effects : list Effect }.

Definition set_cap (c : option Capture) (s : Server) : Server :=
  mkServer (port s) (fallback_port s) c (face_cascade s) (detection_running s)
    (current_emotion_data s) (frame_skip_count s) (process_every_n_frames s)
    (last_successful_detection s) (effects s).

Definition set_face_cascade (c : option Cascade) (s : Server) : Server :=
  mkServer (port s) (fallback_port s) (cap s) c (detection_running s)
    (current_emotion_data s) (frame_skip_count s) (process_every_n_frames s)
    (last_successful_detection s) (effects s).

Definition set_detection_running (b : bool) (s : Server) : Server :=
  mkServer (port s) (fallback_port s) (cap s) (face_cascade s) b
    (current_emotion_data s) (frame_skip_count s) (process_every_n_frames s)
    (last_successful_detection s) (effects s).

Definition set_current_emotion_data (r : Reading) (s : Server) : Server :=
  mkServer (port s) (fallback_port s) (cap s) (face_cascade s) (detection_running s)
    r (frame_skip_count s) (process_every_n_frames s)
    (last_successful_detection s) (effects s).

Definition set_frame_skip_count (n : Z) (s : Server) : Server :=
  mkServer (port s) (fallback_port s) (cap s) (face_cascade s) (detection_running s)
    (current_emotion_data s) n (process_every_n_frames s)
    (last_successful_detection s) (effects s).

Definition set_last_successful_detection (t : Q) (s : Server) : Server :=
  mkServer (port s) (fallback_port s) (cap s) (face_cascade s) (detection_running s)
    (current_emotion_data s) (frame_skip_count s) (process_every_n_frames s)
    t (effects s).

Definition emit (e : Effect) (s : Server) : Server :=
  mkServer (port s) (fallback_port s) (cap s) (face_cascade s) (detection_running s)
    (current_emotion_data s) (frame_skip_count s) (process_every_n_frames s)
    (last_successful_detection s) (effects s ++ [e]).

(** The placeholder reading of [__init__]. *)
Definition placeholder (now : string) : Reading :=
  [ ("emotion", VStr "unknown");
    ("confidence", VFloat 0);
    ("timestamp", VStr now);
    ("faces_detected", VInt 0) ].

(** [EmotionDetectionServer.__init__(port, fallback_port)]: [now] and [t]
    are the clock readings taken during construction. *)
Definition init (p fp : Z) (now : string) (t : Q) : Server :=
  {| port := p;
     fallback_port := fp;
     cap := None;
     face_cascade := None;
     detection_running := false;
     current_emotion_data := placeholder now;
     frame_skip_count := 0;
     process_every_n_frames := 3;
     last_successful_detection := t;
     effects := [] |}.

(** ** process_frame *)

(** The dictionary published when no face is found. *)
Definition no_face_reading (now : string) : Reading :=
  [ ("emotion", VStr "no_face");
    ("confidence", VFloat 0);
    ("timestamp", VStr now);
    ("faces_detected", VInt 0) ].

(** The dictionary published after a successful classification. *)
Definition success_reading (label : string) (confidence : PyVal) (now : string)
    (nfaces : Z) (scores : PyVal) : Reading :=
  [ ("emotion", VStr label);
    ("confidence", confidence);
    ("timestamp", VStr now);
    ("faces_detected", VInt nfaces);
    ("emotion_scores", scores) ].

(** The dictionary published by the [except] branch. *)
Definition error_reading (now : string) (msg : string) : Reading :=
  [ ("emotion", VStr "error");
    ("confidence", VFloat 0);
    ("timestamp", VStr now);
    ("faces_detected", VInt 0);
    ("error", VStr msg) ].

(** [convert_numpy_types(obj)]: a numpy scalar and the native number it is
    converted to are the same value here; a dictionary is rebuilt entry by
    entry with its values converted; anything else is returned as it is. *)
Definition convert_numpy_types (obj : PyVal) : PyVal :=
  match obj with
  | VFloat q => VFloat q
  | VInt n => VInt n
  | VScores d => VScores (map (fun kv => (fst kv, snd kv)) d)
  | VStr _ | VBool _ => obj
  end.

(** [str(KeyError(k))] *)
Definition key_error (k : string) : string := ("'" ++ k ++ "'")%string.

(** [str(e)] for the attribute access on [None] when no cascade is loaded. *)
Definition no_cascade_error : string :=
  "'NoneType' object has no attribute 'detectMultiScale'".

(** [str(e)] for [max] on an empty sequence ([py_max] rules it out after the
    length test). *)
Definition empty_max_error : string := "max() arg is an empty sequence".

(** [str(e)] for [result[0]] on a truthy value of length 0, which no value
    of [AnalyzeResult] is. *)
Definition index_error : string := "list index out of range".

(** The body of the [try] block of [process_frame]: either the state after a
    normal return, or the message of the exception that left the block. *)
Definition process_frame_try (s : Server) (frame : Frame) : Exc Server :=
  match cvt_gray frame with
  | Raise m => Raise m
  | Ok _ =>
    match face_cascade s with
    | None => Raise no_cascade_error
    | Some _ =>
      match detect frame with
      | Raise m => Raise m
      | Ok faces =>
        if (length faces =? 0)%nat then
          Ok (set_current_emotion_data (no_face_reading (now frame)) s)
        else
          match py_max face_area faces with
          | None => Raise empty_max_error
          | Some largest_face =>
            match analyze frame largest_face with
            | Raise m => Raise m
            | Ok RNone => Ok s
            | Ok (RList []) => Ok s
            | Ok (RList (r0 :: _)) =>
              let emotion_scores := emotion r0 in
              let dominant := dominant_emotion r0 in
              match assoc dominant emotion_scores with
              | None => Raise (key_error dominant)
              | Some confidence =>
                let emotion_scores_converted :=
                  convert_numpy_types (VScores emotion_scores) in
                let confidence_converted :=
                  convert_numpy_types (VFloat confidence) in
                let s1 :=
                  set_current_emotion_data
                    (success_reading dominant confidence_converted (now frame)
                       (Z.of_nat (length faces)) emotion_scores_converted) s in
                Ok (set_last_successful_detection (clock frame) s1)
              end
            end
          end
      end
    end
  end.

(** [process_frame(frame)]: the [except Exception] branch publishes the
    error reading and the call returns normally. *)
Definition process_frame (s : Server) (frame : Frame) : Server :=
  match process_frame_try s frame with
  | Ok s' => s'
  | Raise m => set_current_emotion_data (error_reading (now frame) m) s
  end.

(** ** Camera and cascade initialisation, start and stop *)

(** What [cv2.VideoCapture(0)] and the three [cap.set] calls do. *)
Inductive OpenOutcome : Type :=
  | OpenRaises                        (* the constructor raises *)
  | Opens (c : Capture) (set_ok : bool).
                                      (* a handle; do the cap.set calls return? *)

(** What [cv2.CascadeClassifier(path)] does. *)
Inductive CascadeOutcome : Type :=
  | CascadeRaises
  | Loads (c : Cascade).

(** The collaborators' answers during one call of
    [start_camera_detection]. *)
Record StartEnv : Type := mkStartEnv
  { load_cascade : CascadeOutcome;
    open_camera : OpenOutcome }.

(** [cap.release()] on the handle held by the service, if any. *)
Definition release_cap (s : Server) : Server :=
  match cap s with
  | None => s
  | Some _ => emit ERelease (set_cap (Some (mkCapture false)) s)
  end.

(** [initialize_camera()] *)
Definition initialize_camera (s : Server) (o : OpenOutcome) : bool * Server :=
  let s1 := emit EVideoCapture (release_cap s) in
  match o with
  | OpenRaises => (false, s1)
  | Opens c set_ok =>
    let s2 := set_cap (Some c) s1 in
    if negb (is_opened c) then (false, s2)
    else if set_ok then (true, s2)
    else (false, s2)
  end.

(** [initialize_face_cascade()] *)
Definition initialize_face_cascade (s : Server) (o : CascadeOutcome) : bool * Server :=
  match o with
  | CascadeRaises => (false, s)
  | Loads c =>
    let s1 := set_face_cascade (Some c) s in
    if cascade_empty c then (false, s1) else (true, s1)
  end.

(** [start_camera_detection()] *)
Definition start_camera_detection (s : Server) (w : StartEnv) : bool * Server :=
  if detection_running s then (true, s)
  else
    let '(ok1, s1) := initialize_face_cascade s (load_cascade w) in
    if negb ok1 then (false, s1)
    else
      let '(ok2, s2) := initialize_camera s1 (open_camera w) in
      if negb ok2 then (false, s2)
      else (true, emit EThreadStart (set_detection_running true s2)).

(** [stop_camera_detection()] *)
Definition stop_camera_detection (s : Server) : Server :=
  let s1 := set_detection_running false s in
  match cap s1 with
  | None => s1
  | Some _ => set_cap None (emit ERelease s1)
  end.

(** The [camera_status] expression of the [/status] handler:
    [(self.cap is not None and self.cap.isOpened()) if self.cap else False]. *)
Definition camera_status (s : Server) : bool :=
  match cap s with
  | Some c => is_opened c
  | None => false
  end.

(** The dictionary returned by [get_status()]; [now] is the clock reading
    taken by the handler. *)
Definition get_status (s : Server) (now : string) : Dict :=
  [ ("server_running", VBool true);
    ("detection_running", VBool (detection_running s));
    ("camera_connected", VBool (camera_status s));
    ("last_detection", VFloat (last_successful_detection s));
    ("timestamp", VStr now) ].

(** The dictionary returned by [get_emotion()]. *)
Definition get_emotion (s : Server) : Reading := current_emotion_data s.

(** ** The detection loop *)

(** What [cap.read()] does. *)
Inductive ReadOutcome : Type :=
  | ReadRaises (msg : string)
  | ReadFailed                        (* ret is False *)
  | ReadFrame (frame : Frame).

(** How one evaluation of the [while] test and body ends. *)
Inductive Flow : Type :=
  | Continue                          (* back to the loop test *)
  | Break                             (* the [break] of "Camera not available" *)
  | Exit.                             (* the loop test was false *)

(** One evaluation of [while self.detection_running: ...]. *)
Definition detection_iteration (s : Server) (r : ReadOutcome) : Server * Flow :=
  if negb (detection_running s) then (s, Exit)
  else
    let s1 := set_frame_skip_count (frame_skip_count s + 1) s in
    if frame_skip_count s1 <? process_every_n_frames s1 then (s1, Continue)
    else
      let s2 := set_frame_skip_count 0 s1 in
      match cap s2 with
      | None => (s2, Break)
      | Some c =>
        if negb (is_opened c) then (s2, Break)
        else
          match r with
          | ReadRaises _ => (s2, Continue)
          | ReadFailed => (s2, Continue)
          | ReadFrame frame => (process_frame s2 frame, Continue)
          end
      end.

(** [detection_loop()] run against a finite prefix of the camera's answers:
    [None] as flow means the loop is still running when the prefix is used
    up. *)
Fixpoint detection_loop (s : Server) (reads : list ReadOutcome) : Server * option Flow :=
  match reads with
  | [] => (s, None)
  | r :: reads' =>
    match detection_iteration s r with
    | (s', Continue) => detection_loop s' reads'
    | (s', fl) => (s', Some fl)
    end
  end.

(** ** The whole service: handler calls, loop iterations, device events *)

(** The service object together with the number of detection threads that
    have been started and have not left their loop. *)
Record System : Type := mkSystem { srv : Server; live_loops : nat }.

Inductive Op : Type :=
  | OpStart (w : StartEnv)            (* POST /start, or the auto-start of main *)
  | OpStop                            (* POST /stop *)
  | OpIterate (r : ReadOutcome)       (* one loop iteration of a live thread *)
  | OpCameraLost.                     (* the device stops reporting itself open *)

(** The camera is unplugged or fails: its handle no longer reports open. *)
Definition camera_lost (s : Server) : Server :=
  match cap s with
  | None => s
  | Some _ => set_cap (Some (mkCapture false)) s
  end.

Definition step (y : System) (o : Op) : System :=
  match o with
  | OpStart w =>
    let '(ok, s') := start_camera_detection (srv y) w in
    let spawned := (negb (detection_running (srv y)) && ok)%bool in
    mkSystem s' (if spawned then S (live_loops y) else live_loops y)
  | OpStop => mkSystem (stop_camera_detection (srv y)) (live_loops y)
  | OpIterate r =>
    match live_loops y with
    | O => y
    | S n =>
      match detection_iteration (srv y) r with
      | (s', Continue) => mkSystem s' (S n)
      | (s', _) => mkSystem s' n
      end
    end
  | OpCameraLost => mkSystem (camera_lost (srv y)) (live_loops y)
  end.

Definition run (y : System) (ops : list Op) : System := fold_left step ops y.

(** The service right after construction. *)
Definition boot (p fp : Z) (now : string) (t : Q) : System :=
  mkSystem (init p fp now t) 0.

(** A reading is "ever current" if some schedule of operations after
    construction leaves it in the store. *)
Definition ever_current (r : Reading) : Prop :=
  exists p fp now t ops, current_emotion_data (srv (run (boot p fp now t) ops)) = r.

(** ** run_server: the port fallback *)

(** [needle in hay] on Python strings. *)
Fixpoint contains (needle hay : string) : bool :=
  (String.prefix needle hay ||
   match hay with
   | EmptyString => false
   | String _ hay' => contains needle hay'
   end)%bool.

(** The classes the handlers of [run_server] tell apart. *)
Inductive ExcKind : Type :=
  | KOSError                          (* OSError and its subclasses *)
  | KException                        (* any other subclass of Exception *)
  | KBaseException.                   (* KeyboardInterrupt, SystemExit, ... *)

Record PyExc : Type := mkPyExc { exc_kind : ExcKind; exc_str : string }.

(** What one call of [app.run(host, port, ...)] does: it binds the port and
    serves, or it raises. *)
Inductive AppRun : Type :=
  | Serves
  | Raises (e : PyExc).

(** What a call of [run_server] did: the ports handed to [app.run], in
    order, and whether the call ended serving or with an exception leaving
    [run_server]. *)
Record ServerRun : Type := mkServerRun
  { tried : list Z; outcome : AppRun }.

Definition address_in_use : string := "Address already in use".

(** [run_server()] *)
Definition run_server (s : Server) (app_run : Z -> AppRun) : ServerRun :=
  match app_run (port s) with
  | Serves => mkServerRun [port s] Serves
  | Raises e =>
    match exc_kind e with
    | KOSError =>
      if contains address_in_use (exc_str e) then
        match app_run (fallback_port s) with
        | Serves => mkServerRun [port s; fallback_port s] Serves
        | Raises fallback_error =>
          (* logged when it is an Exception, and re-raised either way *)
          mkServerRun [port s; fallback_port s] (Raises fallback_error)
        end
      else mkServerRun [port s] (Raises e)
    | KException => mkServerRun [port s] (Raises e)
    | KBaseException => mkServerRun [port s] (Raises e)
    end
  end.

(** ** The reading store under its lock *)

Module Store.
Local Open Scope nat_scope.

(** Where a thread stands with respect to [with self.data_lock: ...]. *)
Inductive Thread : Type :=
  | Idle                            (* outside both critical sections *)
  | ReadWait                        (* get_emotion, at [with self.data_lock] *)
  | ReadLocked                      (* holds the lock, about to load the attribute *)
  | ReadCopy (p : nat) (out : Dict) (* jsonify serialises object [p]; [out] so far *)
  | WriteWait (d : Reading)         (* process_frame, at [with self.data_lock] *)
  | WriteBuild (d : Reading) (n : nat)
                                    (* holds the lock; [n] entries of the dict
                                       display are evaluated *)
  | Unlock.                         (* leaving the [with] block *)

(** Dictionaries live in a heap and are never updated in place: the
    program only ever rebinds [self.current_emotion_data] to a dictionary
    it has just built.  [published] logs, in order, the dictionaries whose
    assignment has been executed; [responses] logs the bodies of
    [get_emotion], each at the moment its serialisation completes inside the
    [with] block (the handler hands the body out after leaving the
    block). *)
Record State : Type := mkState
  { heap : list Reading;
    cur : nat;                      (* self.current_emotion_data, a reference *)
    lock : option nat;              (* the thread holding self.data_lock *)
    threads : list Thread;
    responses : list Reading;
    published : list Reading }.

(** What an idle thread does next. *)
Inductive Choice : Type :=
  | BeginRead                       (* a GET /emotion request arrives *)
  | BeginWrite (d : Reading)        (* process_frame reaches one of its updates *)
  | Next.                           (* take the next step of the current call *)

Definition set_thread (i : nat) (t : Thread) (s : State) : State :=
  mkState (heap s) (cur s) (lock s) (<[i:=t]> (threads s)) (responses s) (published s).

Definition set_lock (l : option nat) (s : State) : State :=
  mkState (heap s) (cur s) l (threads s) (responses s) (published s).

Definition respond (r : Reading) (s : State) : State :=
  mkState (heap s) (cur s) (lock s) (threads s) (responses s ++ [r]) (published s).

(** [self.current_emotion_data = d] for a freshly built [d]. *)
Definition publish (d : Reading) (s : State) : State :=
  mkState (heap s ++ [d]) (length (heap s)) (lock s) (threads s) (responses s)
    (published s ++ [d]).

(** Thread [i] takes one step; a blocked thread does not move. *)
Definition step (s : State) (i : nat) (c : Choice) : State :=
  match threads s !! i with
  | None => s
  | Some Idle =>
    match c with
    | BeginRead => set_thread i ReadWait s
    | BeginWrite d => set_thread i (WriteWait d) s
    | Next => s
    end
  | Some ReadWait =>
    match lock s with
    | None => set_lock (Some i) (set_thread i ReadLocked s)
    | Some _ => s
    end
  | Some ReadLocked => set_thread i (ReadCopy (cur s) []) s
  | Some (ReadCopy p out) =>
    match heap s !! p with
    | None => s
    | Some d =>
      match d !! length out with
      | Some item => set_thread i (ReadCopy p (out ++ [item])) s
      | None => respond out (set_thread i Unlock s)
      end
    end
  | Some (WriteWait d) =>
    match lock s with
    | None => set_lock (Some i) (set_thread i (WriteBuild d 0) s)
    | Some _ => s
    end
  | Some (WriteBuild d n) =>
    if n <? length d then set_thread i (WriteBuild d (S n)) s
    else publish (take n d) (set_thread i Unlock s)
  | Some Unlock => set_lock None (set_thread i Idle s)
  end.

(** The store after construction, with [n] threads that may call in. *)
Definition init (r0 : Reading) (n : nat) : State :=
  mkState [r0] 0 None (replicate n Idle) [] [].

(** A schedule: which thread moves, and what it starts if it is idle. *)
Definition exec (s : State) (sched : list (nat * Choice)) : State :=
  fold_left (fun s ic => step s (fst ic) (snd ic)) sched s.

(** The reading the store holds. *)
Definition current (s : State) : option Reading := heap s !! cur s.

(** A thread inside a critical section of [self.data_lock]. *)
Definition in_section (t : Thread) : bool :=
  match t with
  | ReadLocked | ReadCopy _ _ | WriteBuild _ _ | Unlock => true
  | Idle | ReadWait | WriteWait _ => false
  end.

(** What the heap and the schedule guarantee about one thread: a reader
    has copied a prefix of the object it loaded, and a writer builds a
    dictionary that was requested. *)
Definition thread_ok (req : Reading -> Prop) (h : list Reading) (t : Thread) : Prop :=
  match t with
  | ReadCopy p out => exists d : Reading, h !! p = Some d /\ out = take (length out) d
  | WriteWait d | WriteBuild d _ => req d
  | Idle | ReadWait | ReadLocked | Unlock => True
  end.

(** The data invariant of the store, relative to the initial reading and
    to the dictionaries [req] that writers were asked to publish. *)
Record inv_data (req : Reading -> Prop) (r0 : Reading) (s : State) : Prop :=
  mkInvData
  { inv_heap : heap s = r0 :: published s;
    inv_cur : cur s = length (published s);
    inv_responses : forall r : Reading, r ∈ responses s -> r ∈ heap s;
    inv_published : forall d : Reading, d ∈ published s -> req d;
    inv_threads : forall (i : nat) (t : Thread),
        threads s !! i = Some t -> thread_ok req (heap s) t }.

(** Mutual exclusion: a thread inside a critical section holds the
    lock. *)
Definition inv_lock (s : State) : Prop :=
  forall (i : nat) (t : Thread),
    threads s !! i = Some t -> in_section t = true -> lock s = Some i.

(** The dictionaries the schedule asks writers to publish. *)
Definition requested (sched : list (nat * Choice)) (d : Reading) : Prop :=
  exists i : nat, (i, BeginWrite d) ∈ sched.

(** A reader and a writer contend for the lock: thread 0 serves a request,
    thread 1 publishes a no-face reading and is blocked meanwhile, then
    thread 0 serves a second request. *)
Definition sample_schedule : list (nat * Choice) :=
  [ (0, BeginRead); (1, BeginWrite (no_face_reading "t1")) ]
  ++ replicate 3 (0, Next)          (* lock, load, first entry *)
  ++ replicate 4 (1, Next)          (* blocked on the lock *)
  ++ replicate 5 (0, Next)          (* remaining entries, respond, unlock *)
  ++ replicate 7 (1, Next)          (* lock, four entries, assign, unlock *)
  ++ [ (0, BeginRead) ]
  ++ replicate 8 (0, Next).

(** A reader that is serialising holds the object the store refers to. *)
Definition inv_readers (s : State) : Prop :=
  forall (i p : nat) (out : Dict),
    threads s !! i = Some (ReadCopy p out) -> p = cur s.

(** The lock is held only by a thread inside a critical section. *)
Definition inv_holder (s : State) : Prop :=
  forall i : nat, lock s = Some i ->
    exists t : Thread, threads s !! i = Some t /\ in_section t = true.

(** Thread [i] is scheduled [k] times in a row and goes on with its call. *)
Definition drive (s : State) (i : nat) (k : nat) : State :=
  Nat.iter k (fun s' => step s' i Next) s.

(** An upper bound on the steps a thread inside a critical section needs to
    leave it. *)
Definition steps_left (s : State) (t : Thread) : nat :=
  match t with
  | ReadLocked => length (default [] (heap s !! cur s)) + 3
  | ReadCopy p out => length (default [] (heap s !! p)) - length out + 2
  | WriteBuild d n => length d - n + 2
  | Unlock => 1
  | Idle | ReadWait | WriteWait _ => 0
  end.

(** The sample schedule up to the moment thread 0 has copied the whole
    placeholder and is about to respond. *)
Definition sample_prefix : list (nat * Choice) :=
  [ (0, BeginRead); (1, BeginWrite (no_face_reading "t1")) ]
  ++ replicate 3 (0, Next)
  ++ replicate 4 (1, Next)
  ++ replicate 3 (0, Next).
End Store.

(** ** Specification vocabulary and sample data *)

(** The area of a region as a mathematical integer. *)
Definition true_area (face : Region) : Z := face_w face * face_h face.

(** A region as a detector over a camera frame reports it: its sides are
    not negative and its area fits the 32-bit product. *)
Definition fits_int32 (face : Region) : Prop :=
  0 <= face_w face /\ 0 <= face_h face /\ true_area face < 2 ^ 31.

(** [m] sits at index [i] of [l], no element has a larger key, and every
    element before index [i] has a strictly smaller key. *)
Definition first_largest {A : Type} (key : A -> Z) (l : list A) (i : nat) (m : A) : Prop :=
  l !! i = Some m /\
  forall (j : nat) (a : A), l !! j = Some a ->
    key a <= key m /\ ((j < i)%nat -> key a < key m).

(** A result of [DeepFace.analyze] that fails the test
    [result and len(result) > 0]. *)
Definition falsy (res : AnalyzeResult) : bool :=
  match res with
  | RNone => true
  | RList l => (length l =? 0)%nat
  end.

Definition sample_cascade : Cascade := mkCascade false.

(** A service whose cascade is loaded and whose camera is open. *)
Definition sample_running : Server :=
  {| port := 5001;
     fallback_port := 5002;
     cap := Some (mkCapture true);
     face_cascade := Some sample_cascade;
     detection_running := true;
     current_emotion_data := placeholder "2024-01-01T00:00:00";
     frame_skip_count := 2;
     process_every_n_frames := 3;
     last_successful_detection := 0;
     effects := [EVideoCapture; EThreadStart] |}.

Definition small_face : Region := mkRegion 10 10 40 40.
Definition big_face : Region := mkRegion 200 120 60 60.
Definition other_big_face : Region := mkRegion 400 300 60 60.

Definition happy_scores : list (string * Q) :=
  [ ("angry", 21 # 10); ("happy", 812 # 10); ("sad", 31 # 10);
    ("neutral", 136 # 10) ].

(** Two faces plus a tie for the largest; the classifier answers only for the
    first 60x60 region. *)
Definition happy_frame : Frame :=
  {| cvt_gray := Ok tt;
     detect := Ok [small_face; big_face; other_big_face];
     analyze := fun r =>
       if (face_x r =? 200) then Ok (RList [mkAnalysis happy_scores "happy"])
       else Raise "unexpected region";
     now := "2024-01-01T00:00:01";
     clock := 1704067201 # 1 |}.

Definition empty_frame : Frame :=
  {| cvt_gray := Ok tt;
     detect := Ok [];
     analyze := fun _ => Raise "unexpected region";
     now := "2024-01-01T00:00:02";
     clock := 1704067202 # 1 |}.

Definition unanswered_frame : Frame :=
  {| cvt_gray := Ok tt;
     detect := Ok [small_face; big_face];
     analyze := fun _ => Ok (RList []);
     now := "2024-01-01T00:00:03";
     clock := 1704067203 # 1 |}.

(** The message with which the classifier call of [process_frame] raises on
    this frame, if the frame gets that far and the call raises. *)
Definition classifier_error (frame : Frame) : option string :=
  match cvt_gray frame, detect frame with
  | Ok _, Ok faces =>
    match py_max face_area faces with
    | Some largest_face =>
      match analyze frame largest_face with
      | Raise m => Some m
      | Ok _ => None
      end
    | None => None
    end
  | _, _ => None
  end.

(** The camera delivers a frame on which the classifier raises. *)
Definition raising (r : ReadOutcome) : Prop :=
  match r with
  | ReadFrame frame => exists m : string, classifier_error frame = Some m
  | ReadRaises _ | ReadFailed => False
  end.

Definition is_error_reading (r : Reading) : Prop :=
  exists (now : string) (m : string), r = error_reading now m.

(** The sentence of C6 with its demand of a non-empty error message, for one
    processing iteration. *)
Definition C6_as_stated : Prop :=
  forall (s : Server) (c : Capture) (c0 : Cascade) (frame : Frame) (m : string),
    detection_running s = true ->
    cap s = Some c -> is_opened c = true ->
    face_cascade s = Some c0 ->
    process_every_n_frames s <= frame_skip_count s + 1 ->
    classifier_error frame = Some m ->
    exists s' : Server,
      detection_iteration s (ReadFrame frame) = (s', Continue) /\
      assoc "emotion" (current_emotion_data s') = Some (VStr "error") /\
      assoc "confidence" (current_emotion_data s') = Some (VFloat 0) /\
      assoc "faces_detected" (current_emotion_data s') = Some (VInt 0) /\
      assoc "timestamp" (current_emotion_data s') = Some (VStr (now frame)) /\
      exists e : string,
        assoc "error" (current_emotion_data s') = Some (VStr e) /\ e <> "".

(** The classifier runs out of memory: [str(MemoryError())] is empty. *)
Definition silent_error_frame : Frame :=
  {| cvt_gray := Ok tt;
     detect := Ok [small_face; big_face];
     analyze := fun _ => Raise "";
     now := "2024-01-01T00:00:04";
     clock := 1704067204 # 1 |}.

Definition failing_frame : Frame :=
  {| cvt_gray := Ok tt;
     detect := Ok [small_face; big_face];
     analyze := fun _ => Raise "Input image must not be empty";
     now := "2024-01-01T00:00:05";
     clock := 1704067205 # 1 |}.


(** The four dictionaries the program ever binds to
    [current_emotion_data]. *)
Definition reading_shape (r : Reading) : Prop :=
  (exists now : string, r = placeholder now) \/
  (exists now : string, r = no_face_reading now) \/
  (exists (now : string) (m : string), r = error_reading now m) \/
  (exists (label : string) (conf : PyVal) (now : string) (n : nat) (scores : PyVal),
     r = success_reading label conf now (Z.of_nat (S n)) scores).

(** The loop test passes, the camera is open and a cascade is loaded. *)
Definition armed (s : Server) : Prop :=
  detection_running s = true /\ camera_status s = true /\ face_cascade s <> None.

(** ** Vocabulary for the lifecycle claims *)

(** Calls of [start_camera_detection] made one after the other: their return
    values and the final state. *)
Fixpoint starts (s : Server) (ws : list StartEnv) : list bool * Server :=
  match ws with
  | [] => ([], s)
  | w :: ws' =>
    let '(ok, s1) := start_camera_detection s w in
    let '(oks, s2) := starts s1 ws' in
    (ok :: oks, s2)
  end.

Definition is_video_capture (e : Effect) : bool :=
  match e with EVideoCapture => true | _ => false end.

Definition is_thread_start (e : Effect) : bool :=
  match e with EThreadStart => true | _ => false end.

(** How many of the recorded effects satisfy [f]. *)
Definition count (f : Effect -> bool) (l : list Effect) : nat :=
  length (List.filter f l).

(** The camera cannot be opened: the constructor raises, or the handle it
    returns reports not open. *)
Definition cannot_open (o : OpenOutcome) : bool :=
  match o with
  | OpenRaises => true
  | Opens c _ => negb (is_opened c)
  end.

(** [initialize_face_cascade] will succeed. *)
Definition cascade_loads (o : CascadeOutcome) : bool :=
  match o with
  | CascadeRaises => false
  | Loads c => negb (cascade_empty c)
  end.

Definition good_start : StartEnv :=
  {| load_cascade := Loads sample_cascade;
     open_camera := Opens (mkCapture true) true |}.

Definition no_camera_start : StartEnv :=
  {| load_cascade := Loads sample_cascade;
     open_camera := Opens (mkCapture false) true |}.

Definition fresh_server : Server := init 5001 5002 "2024-01-01T00:00:00" 0.

(** The service is started, the camera then fails, the loop reaches its
    next processing iteration, and a client asks to start again. *)
Definition camera_lost_schedule : list Op :=
  [ OpStart good_start; OpCameraLost;
    OpIterate ReadFailed; OpIterate ReadFailed; OpIterate ReadFailed;
    OpStart good_start ].

(** [SystemExit(1)]: outside the [Exception] hierarchy, and [str(e)] is
    ["1"]. *)
Definition system_exit_1 : PyExc := mkPyExc KBaseException "1".

(** The primary port is taken and the fallback port is free, under the
    [app.run] of current Flask (werkzeug 2.1 and later): on a port that is
    in use it prints the error and raises [SystemExit(1)]; on a free port it
    serves. *)
Definition primary_busy (p : Z) : AppRun :=
  if p =? 5001 then Raises system_exit_1 else Serves.

(** ** The HTTP handlers, shutdown and the entry point *)

(** A Flask response: the JSON body and the status code. *)
Record Response : Type := mkResponse { body : Dict; status : Z }.

(** The [/start] handler. *)
Definition start_detection (s : Server) (w : StartEnv) : Response * Server :=
  let '(ok, s') := start_camera_detection s w in
  if ok then
    (mkResponse [("message", VStr "Detection started successfully")] 200, s')
  else
    (mkResponse [("error", VStr "Failed to start detection")] 500, s').

(** The [/stop] handler. *)
Definition stop_detection (s : Server) : Response * Server :=
  (mkResponse [("message", VStr "Detection stopped successfully")] 200,
   stop_camera_detection s).

(** [shutdown()] *)
Definition shutdown (s : Server) : Server := stop_camera_detection s.

(** How a call of [main] ends. *)
Inductive MainOutcome : Type :=
  | MainReturns                       (* main returns normally *)
  | MainPropagates (e : PyExc).       (* an exception leaves main *)

(** [main()].  [now] and [t] are the clock readings of the construction,
    [w] the collaborators' answers to the auto-start, [during] what the
    detection thread, the request handlers and the camera do until
    [run_server] is left, [app_run] the behaviour of [app.run] per port, and
    [keyboard_interrupt e] tells whether an exception outside the
    [Exception] hierarchy is a [KeyboardInterrupt].  The [finally] clause
    shuts the service down on every path. *)
Definition main (now : string) (t : Q) (w : StartEnv) (during : list Op)
    (app_run : Z -> AppRun) (keyboard_interrupt : PyExc -> bool) : System * MainOutcome :=
  let y1 := step (boot 5001 5002 now t) (OpStart w) in
  let y2 := run y1 during in
  let y3 := mkSystem (shutdown (srv y2)) (live_loops y2) in
  match outcome (run_server (srv y1) app_run) with
  | Serves => (y3, MainReturns)
  | Raises e =>
    match exc_kind e with
    | KOSError | KException => (y3, MainReturns)
    | KBaseException =>
      if keyboard_interrupt e then (y3, MainReturns) else (y3, MainPropagates e)
    end
  end.

(** ** Vocabulary for the further properties *)

Definition is_release (e : Effect) : bool :=
  match e with ERelease => true | _ => false end.

(** [initialize_camera] will succeed: the constructor returns an open handle
    and the [cap.set] calls return. *)
Definition camera_opens (o : OpenOutcome) : bool :=
  match o with
  | OpenRaises => false
  | Opens c set_ok => (is_opened c && set_ok)%bool
  end.

(** The camera delivered no frame to process. *)
Definition no_frame (r : ReadOutcome) : bool :=
  match r with
  | ReadRaises _ | ReadFailed => true
  | ReadFrame _ => false
  end.

(** A frame whose detector finds one face and whose classifier names a
    dominant label that its score table lacks. *)
Definition mislabelled_frame : Frame :=
  {| cvt_gray := Ok tt;
     detect := Ok [big_face];
     analyze := fun _ => Ok (RList [mkAnalysis happy_scores "surprise"]);
     now := "2024-01-01T00:00:06";
     clock := 1704067206 # 1 |}.

(** A frame on which the detector raises. *)
Definition undetectable_frame : Frame :=
  {| cvt_gray := Ok tt;
     detect := Raise "OpenCV: detectMultiScale failed";
     analyze := fun _ => Raise "unexpected region";
     now := "2024-01-01T00:00:07";
     clock := 1704067207 # 1 |}.

(** A running service right after a processing iteration. *)
Definition sample_fresh_cycle : Server :=
  set_frame_skip_count 0 sample_running.

(** While the flag is set, a cascade that is not empty is loaded and a
    camera handle is held. *)
Definition equipped (s : Server) : Prop :=
  detection_running s = true ->
  (exists c0 : Cascade, face_cascade s = Some c0 /\ cascade_empty c0 = false) /\
  cap s <> None.

(** The primary call of [app.run] raises an [OSError] whose text has
    "Address already in use" somewhere inside it. *)
Definition primary_in_use (s : Server) (app_run : Z -> AppRun) : Prop :=
  exists (e : PyExc) (a b : string),
    app_run (port s) = Raises e /\
    exc_kind e = KOSError /\
    exc_str e = (a ++ address_in_use ++ b)%string.

(** The frame [happy_frame] seen by a classifier that would answer
    differently for every region but the largest. *)
Definition happy_frame_variant : Frame :=
  {| cvt_gray := Ok tt;
     detect := Ok [small_face; big_face; other_big_face];
     analyze := fun r =>
       if (face_x r =? 200) then Ok (RList [mkAnalysis happy_scores "happy"])
       else Ok (RList [mkAnalysis happy_scores "sad"]);
     now := "2024-01-01T00:00:01";
     clock := 1704067201 # 1 |}.

(** A running service with one live detection thread. *)
Definition sample_system : System := mkSystem sample_running 1.

(** ** Vocabulary for readings and classifier labels *)



(** * Properties *)

(** ** Selecting the largest face *)

Lemma wrap32_small (z : Z) : - 2 ^ 31 <= z < 2 ^ 31 -> wrap32 z = z.
Proof.
  intros Hz. unfold wrap32.
  rewrite Z.mod_small by lia. lia.
Qed.

Lemma face_area_exact (face : Region) : fits_int32 face -> face_area face = true_area face.
Proof.
  intros (Hw & Hh & Hlt). unfold face_area. apply wrap32_small.
  unfold true_area in *. nia.
Qed.

(** The scan either keeps [best], which then dominates the whole list, or
    stops at the first position holding the maximum. *)
Lemma max_from_scan {A : Type} (key : A -> Z) (l : list A) :
  forall best : A,
    let m := max_from key best l in
    key best <= key m /\
    (forall (j : nat) (a : A), l !! j = Some a -> key a <= key m) /\
    ((m = best /\ forall (j : nat) (a : A), l !! j = Some a -> key a <= key best) \/
     (exists i : nat, l !! i = Some m /\ key best < key m /\
        forall (j : nat) (a : A), (j < i)%nat -> l !! j = Some a -> key a < key m)).
Proof.
  induction l as [|x l IH]; intros best; simpl.
  - split; [lia|]. split; [intros j a Hj; destruct j; discriminate|].
    left. split; [reflexivity|]. intros j a Hj. destruct j; discriminate.
  - destruct (Z.ltb_spec (key best) (key x)) as [Hlt|Hge].
    + destruct (IH x) as (Hx & Hall & Hwhere).
      split; [lia|]. split.
      * intros [|j] a Hj; simpl in Hj; [injection Hj as <-; exact Hx|eauto].
      * right. destruct Hwhere as [[Hm Hdom]|(i & Hi & Hxm & Hbefore)].
        -- exists O. rewrite Hm. split; [reflexivity|]. split; [lia|].
           intros j a Hj. lia.
        -- exists (S i). split; [exact Hi|]. split; [lia|].
           intros [|j] a Hj Ha; simpl in Ha.
           ++ injection Ha as <-. lia.
           ++ apply (Hbefore j a); [lia|exact Ha].
    + destruct (IH best) as (Hb & Hall & Hwhere).
      split; [exact Hb|]. split.
      * intros [|j] a Hj; simpl in Hj; [injection Hj as <-; lia|eauto].
      * destruct Hwhere as [[Hm Hdom]|(i & Hi & Hbm & Hbefore)].
        -- left. split; [exact Hm|].
           intros [|j] a Hj; simpl in Hj; [injection Hj as <-; lia|eauto].
        -- right. exists (S i). split; [exact Hi|]. split; [exact Hbm|].
           intros [|j] a Hj Ha; simpl in Ha.
           ++ injection Ha as <-. lia.
           ++ apply (Hbefore j a); [lia|exact Ha].
Qed.

(** Python's [max] returns the first element of maximal key. *)
Lemma py_max_first_largest {A : Type} (key : A -> Z) (l : list A) (m : A) :
  py_max key l = Some m -> exists i : nat, first_largest key l i m.
Proof.
  destruct l as [|x l]; simpl; [discriminate|].
  intros [= <-].
  destruct (max_from_scan key l x) as (Hx & Hall & Hwhere).
  destruct Hwhere as [[Hm Hdom]|(i & Hi & Hxm & Hbefore)].
  - exists O. rewrite Hm. split; [reflexivity|].
    intros [|j] a Hj; simpl in Hj.
    + injection Hj as <-. split; [lia|lia].
    + split; [eauto|lia].
  - exists (S i). split; [exact Hi|].
    intros [|j] a Hj; simpl in Hj.
    + injection Hj as <-. split; [lia|intros _; lia].
    + split; [eauto|]. intros Hlt. apply (Hbefore j a); [lia|exact Hj].
Qed.

Lemma first_largest_ext {A : Type} (key key' : A -> Z) (l : list A) (i : nat) (m : A) :
  (forall a : A, a ∈ l -> key a = key' a) ->
  first_largest key l i m -> first_largest key' l i m.
Proof.
  intros Hext (Hi & Hmax). split; [exact Hi|].
  intros j a Hj.
  rewrite <- (Hext a), <- (Hext m).
  - exact (Hmax j a Hj).
  - eapply list_elem_of_lookup_2; exact Hi.
  - eapply list_elem_of_lookup_2; exact Hj.
Qed.

Lemma convert_numpy_types_id (obj : PyVal) : convert_numpy_types obj = obj.
Proof.
  destruct obj as [s|n|q|b|d]; simpl; try reflexivity.
  f_equal. induction d as [|[k v] d IH]; simpl; [reflexivity|].
  f_equal. exact IH.
Qed.

(** ** process_frame, branch by branch *)

(** C4. When the detector returns a non-empty list of regions and the
    classification of the selected region succeeds, the selected region is
    the first one of maximal area [w * h], and the reading is replaced by
    the classifier's dominant label, that label's score, the number of
    regions found and the whole score distribution. *)
Theorem C4_largest_face_reading
    (s : Server) (frame : Frame) (c0 : Cascade) (faces : list Region)
    (largest : Region) (a : Analysis) (rest : list Analysis) (conf : Q) :
  cvt_gray frame = Ok tt ->
  face_cascade s = Some c0 ->
  detect frame = Ok faces ->
  faces <> [] ->
  Forall fits_int32 faces ->
  py_max face_area faces = Some largest ->
  analyze frame largest = Ok (RList (a :: rest)) ->
  assoc (dominant_emotion a) (emotion a) = Some conf ->
  (exists i : nat, first_largest true_area faces i largest) /\
  current_emotion_data (process_frame s frame) =
    [ ("emotion", VStr (dominant_emotion a));
      ("confidence", VFloat conf);
      ("timestamp", VStr (now frame));
      ("faces_detected", VInt (Z.of_nat (length faces)));
      ("emotion_scores", VScores (emotion a)) ] /\
  last_successful_detection (process_frame s frame) = clock frame.
Proof.
  intros Hgray Hcasc Hdet Hne Hfit Hmax Hres Hconf.
  split.
  - destruct (py_max_first_largest face_area faces largest Hmax) as [i Hi].
    exists i. apply (first_largest_ext face_area); [|exact Hi].
    intros r Hr. apply face_area_exact.
    rewrite Forall_forall in Hfit. apply Hfit, Hr.
  - unfold process_frame, process_frame_try.
    rewrite Hgray, Hcasc, Hdet.
    destruct faces as [|f0 faces']; [contradiction|].
    change (length (f0 :: faces') =? 0)%nat with false. cbv iota.
    rewrite Hmax, Hres. cbv zeta. rewrite Hconf.
    rewrite !convert_numpy_types_id. split; reflexivity.
Qed.

(** C5. When the detector returns no region, the reading is replaced by
    the no-face reading: emotion [no_face], confidence 0, no faces, the
    timestamp of this frame, and no scores entry. *)
Theorem C5_no_face_reading (s : Server) (frame : Frame) (c0 : Cascade) :
  cvt_gray frame = Ok tt ->
  face_cascade s = Some c0 ->
  detect frame = Ok [] ->
  let r := current_emotion_data (process_frame s frame) in
  assoc "emotion" r = Some (VStr "no_face") /\
  assoc "confidence" r = Some (VFloat 0) /\
  assoc "faces_detected" r = Some (VInt 0) /\
  assoc "timestamp" r = Some (VStr (now frame)) /\
  assoc "emotion_scores" r = None /\
  map fst r = ["emotion"; "confidence"; "timestamp"; "faces_detected"].
Proof.
  intros Hgray Hcasc Hdet. unfold process_frame, process_frame_try.
  rewrite Hgray, Hcasc, Hdet. simpl. repeat split; reflexivity.
Qed.

(** C10. When the classifier returns without raising but its result is
    empty or falsy, [process_frame] changes nothing: the reading, the time
    of the last successful detection and every other field stay as they
    were. *)
Theorem C10_falsy_result_keeps_state
    (s : Server) (frame : Frame) (c0 : Cascade) (faces : list Region)
    (largest : Region) (res : AnalyzeResult) :
  cvt_gray frame = Ok tt ->
  face_cascade s = Some c0 ->
  detect frame = Ok faces ->
  py_max face_area faces = Some largest ->
  analyze frame largest = Ok res ->
  falsy res = true ->
  process_frame s frame = s.
Proof.
  intros Hgray Hcasc Hdet Hmax Hres Hfalsy.
  unfold process_frame, process_frame_try.
  rewrite Hgray, Hcasc, Hdet.
  destruct faces as [|f0 faces']; [discriminate|].
  change (length (f0 :: faces') =? 0)%nat with false. cbv iota.
  rewrite Hmax, Hres.
  destruct res as [|[|a l]]; [reflexivity|reflexivity|discriminate].
Qed.

(** *** Concrete runs *)

Lemma C4_largest_face_reading_witness :
  (exists i : nat,
     first_largest true_area [small_face; big_face; other_big_face] i big_face) /\
  current_emotion_data (process_frame sample_running happy_frame) =
    [ ("emotion", VStr "happy");
      ("confidence", VFloat (812 # 10));
      ("timestamp", VStr "2024-01-01T00:00:01");
      ("faces_detected", VInt 3);
      ("emotion_scores", VScores happy_scores) ] /\
  last_successful_detection (process_frame sample_running happy_frame) = 1704067201 # 1.
Proof.
  apply (C4_largest_face_reading sample_running happy_frame sample_cascade
           [small_face; big_face; other_big_face] big_face
           (mkAnalysis happy_scores "happy") [] (812 # 10)).
  - reflexivity.
  - reflexivity.
  - reflexivity.
  - discriminate.
  - repeat constructor; simpl; lia.
  - reflexivity.
  - reflexivity.
  - reflexivity.
Defined.

Lemma C5_no_face_reading_witness :
  let r := current_emotion_data (process_frame sample_running empty_frame) in
  assoc "emotion" r = Some (VStr "no_face") /\
  assoc "confidence" r = Some (VFloat 0) /\
  assoc "faces_detected" r = Some (VInt 0) /\
  assoc "timestamp" r = Some (VStr "2024-01-01T00:00:02") /\
  assoc "emotion_scores" r = None /\
  map fst r = ["emotion"; "confidence"; "timestamp"; "faces_detected"].
Proof.
  apply (C5_no_face_reading sample_running empty_frame sample_cascade);
    reflexivity.
Defined.

Lemma C10_falsy_result_keeps_state_witness :
  process_frame sample_running unanswered_frame = sample_running.
Proof.
  apply (C10_falsy_result_keeps_state sample_running unanswered_frame
           sample_cascade [small_face; big_face] big_face (RList []));
    reflexivity.
Defined.

(** ** The shape of every reading *)

Lemma process_frame_try_reading (s s' : Server) (frame : Frame) :
  process_frame_try s frame = Ok s' ->
  current_emotion_data s' = current_emotion_data s \/
  reading_shape (current_emotion_data s').
Proof.
  unfold process_frame_try.
  destruct (cvt_gray frame); [|discriminate].
  destruct (face_cascade s); [|discriminate].
  destruct (detect frame) as [faces|]; [|discriminate].
  destruct faces as [|f0 faces'].
  - intros [= <-]. right. right. left. exists (now frame). reflexivity.
  - change (length (f0 :: faces') =? 0)%nat with false. cbv iota.
    destruct (py_max face_area (f0 :: faces')) as [largest|]; [|discriminate].
    destruct (analyze frame largest) as [[|[|r0 rest]]|]; try discriminate.
    + intros [= <-]. left. reflexivity.
    + intros [= <-]. left. reflexivity.
    + cbv zeta. destruct (assoc (dominant_emotion r0) (emotion r0)) as [conf|];
        [|discriminate].
      intros [= <-]. right. right. right. right.
      exists (dominant_emotion r0), (convert_numpy_types (VFloat conf)), (now frame),
        (length faces'), (convert_numpy_types (VScores (emotion r0))).
      reflexivity.
Qed.

Lemma process_frame_reading (s : Server) (frame : Frame) :
  current_emotion_data (process_frame s frame) = current_emotion_data s \/
  reading_shape (current_emotion_data (process_frame s frame)).
Proof.
  unfold process_frame.
  destruct (process_frame_try s frame) as [s'|m] eqn:Htry.
  - exact (process_frame_try_reading s s' frame Htry).
  - right. right. right. left. exists (now frame), m. reflexivity.
Qed.

Lemma detection_iteration_reading (s : Server) (r : ReadOutcome) :
  current_emotion_data (fst (detection_iteration s r)) = current_emotion_data s \/
  reading_shape (current_emotion_data (fst (detection_iteration s r))).
Proof.
  unfold detection_iteration.
  destruct (detection_running s); simpl; [|left; reflexivity].
  destruct (frame_skip_count s + 1 <? process_every_n_frames s); simpl;
    [left; reflexivity|].
  destruct (cap s) as [c|]; simpl; [|left; reflexivity].
  destruct (is_opened c); simpl; [|left; reflexivity].
  destruct r as [m| |frame]; simpl; try (left; reflexivity).
  destruct (process_frame_reading (set_frame_skip_count 0
              (set_frame_skip_count (frame_skip_count s + 1) s)) frame) as [H|H].
  - left. exact H.
  - right. exact H.
Qed.

Lemma start_camera_detection_reading (s : Server) (w : StartEnv) :
  current_emotion_data (snd (start_camera_detection s w)) = current_emotion_data s.
Proof.
  unfold start_camera_detection, initialize_face_cascade, initialize_camera, release_cap.
  destruct (detection_running s); [reflexivity|].
  destruct (load_cascade w) as [|c]; [reflexivity|].
  destruct (cascade_empty c); simpl; [reflexivity|].
  destruct (cap s); destruct (open_camera w) as [|c' ok]; simpl; try reflexivity;
    destruct (is_opened c'); simpl; try reflexivity; destruct ok; reflexivity.
Qed.

Lemma stop_camera_detection_reading (s : Server) :
  current_emotion_data (stop_camera_detection s) = current_emotion_data s.
Proof.
  unfold stop_camera_detection. simpl. destruct (cap s); reflexivity.
Qed.

Lemma step_reading (y : System) (o : Op) :
  current_emotion_data (srv (step y o)) = current_emotion_data (srv y) \/
  reading_shape (current_emotion_data (srv (step y o))).
Proof.
  destruct o as [w| |r|]; simpl.
  - pose proof (start_camera_detection_reading (srv y) w) as H.
    destruct (start_camera_detection (srv y) w) as [ok s']. left. exact H.
  - left. apply stop_camera_detection_reading.
  - destruct (live_loops y) as [|n]; [left; reflexivity|].
    pose proof (detection_iteration_reading (srv y) r) as H.
    destruct (detection_iteration (srv y) r) as [s' [| |]]; exact H.
  - left. unfold camera_lost. destruct (cap (srv y)); reflexivity.
Qed.

Lemma run_reading_shape (ops : list Op) :
  forall y : System,
    reading_shape (current_emotion_data (srv y)) ->
    reading_shape (current_emotion_data (srv (run y ops))).
Proof.
  induction ops as [|o ops IH]; intros y Hy; [exact Hy|].
  unfold run. simpl. apply IH.
  destruct (step_reading y o) as [H|H]; [rewrite H; exact Hy|exact H].
Qed.

Lemma ever_current_shape (r : Reading) : ever_current r -> reading_shape r.
Proof.
  intros (p & fp & now & t & ops & <-).
  apply run_reading_shape. left. exists now. reflexivity.
Qed.







(** ** Classifier failures stay inside the loop *)

(** [process_frame] writes the reading and the time of the last success and
    nothing else. *)
Lemma process_frame_writes (s : Server) (frame : Frame) :
  exists (r : Reading) (t : Q),
    process_frame s frame = set_last_successful_detection t (set_current_emotion_data r s).
Proof.
  assert (Hsame : s = set_last_successful_detection (last_successful_detection s)
                        (set_current_emotion_data (current_emotion_data s) s))
    by (destruct s; reflexivity).
  unfold process_frame, process_frame_try.
  destruct (cvt_gray frame); [|eexists _, _; reflexivity].
  destruct (face_cascade s); [|eexists _, _; reflexivity].
  destruct (detect frame) as [faces|]; [|eexists _, _; reflexivity].
  destruct (length faces =? 0)%nat; [eexists _, _; reflexivity|].
  destruct (py_max face_area faces) as [largest|]; [|eexists _, _; reflexivity].
  destruct (analyze frame largest) as [[|[|r0 rest]]|];
    try (eexists _, _; exact Hsame); try (eexists _, _; reflexivity).
  cbv zeta. destruct (assoc (dominant_emotion r0) (emotion r0));
    eexists _, _; reflexivity.
Qed.

Lemma py_max_nonempty {A : Type} (key : A -> Z) (l : list A) (m : A) :
  py_max key l = Some m -> (length l =? 0)%nat = false.
Proof. destruct l; [discriminate|reflexivity]. Qed.

Lemma classifier_error_process_frame (s : Server) (c0 : Cascade) (frame : Frame) (m : string) :
  face_cascade s = Some c0 ->
  classifier_error frame = Some m ->
  process_frame s frame = set_current_emotion_data (error_reading (now frame) m) s.
Proof.
  intros Hcasc. unfold classifier_error, process_frame, process_frame_try.
  rewrite Hcasc.
  destruct (cvt_gray frame); [|discriminate].
  destruct (detect frame) as [faces|]; [|discriminate].
  destruct (py_max face_area faces) as [largest|] eqn:Hmax; [|discriminate].
  rewrite (py_max_nonempty _ _ _ Hmax).
  destruct (analyze frame largest); [discriminate|].
  intros [= ->]. reflexivity.
Qed.

(** While the flag is set and the camera is open, an iteration never leaves
    the loop, whatever the camera and the collaborators answer. *)
Lemma armed_iteration (s : Server) (r : ReadOutcome) :
  armed s ->
  exists s' : Server, detection_iteration s r = (s', Continue) /\ armed s'.
Proof.
  intros (Hrun & Hcam & Hcasc). unfold detection_iteration. rewrite Hrun. simpl.
  destruct (frame_skip_count s + 1 <? process_every_n_frames s).
  - eexists. split; [reflexivity|]. repeat split; assumption.
  - unfold camera_status in Hcam. simpl.
    destruct (cap s) as [c|] eqn:Hcap; [|discriminate]. rewrite Hcam. simpl.
    destruct r as [msg| |frame].
    + eexists. split; [reflexivity|]. unfold armed, camera_status. simpl.
      rewrite Hcap. repeat split; assumption.
    + eexists. split; [reflexivity|]. unfold armed, camera_status. simpl.
      rewrite Hcap. repeat split; assumption.
    + eexists. split; [reflexivity|].
      destruct (process_frame_writes
                  (set_frame_skip_count 0 (set_frame_skip_count (frame_skip_count s + 1) s))
                  frame) as (rd & t & ->).
      unfold armed, camera_status. simpl. rewrite Hcap. repeat split; assumption.
Qed.

Lemma raising_iteration_reading (s s' : Server) (r : ReadOutcome) :
  armed s -> raising r ->
  is_error_reading (current_emotion_data s) ->
  detection_iteration s r = (s', Continue) ->
  is_error_reading (current_emotion_data s').
Proof.
  intros (Hrun & Hcam & Hcasc) Hr Herr. unfold detection_iteration. rewrite Hrun. simpl.
  destruct (frame_skip_count s + 1 <? process_every_n_frames s).
  - intros [= <-]. exact Herr.
  - unfold camera_status in Hcam.
    destruct (cap s) as [c|]; [|discriminate]. rewrite Hcam. simpl.
    destruct r as [msg| |frame]; simpl in Hr; try contradiction.
    destruct Hr as [m Hm].
    destruct (face_cascade s) as [c0|] eqn:Hc0; [|contradiction].
    rewrite (classifier_error_process_frame _ c0 frame m); [|exact Hc0|exact Hm].
    intros [= <-]. exists (now frame), m. reflexivity.
Qed.

Lemma raising_loop (reads : list ReadOutcome) :
  forall s : Server,
    armed s -> Forall raising reads ->
    is_error_reading (current_emotion_data s) ->
    snd (detection_loop s reads) = None /\
    detection_running (fst (detection_loop s reads)) = true /\
    is_error_reading (current_emotion_data (fst (detection_loop s reads))).
Proof.
  induction reads as [|r reads IH]; intros s Harmed Hall Herr.
  - simpl. destruct Harmed as (Hrun & _). auto.
  - apply Forall_cons in Hall as [Hr Hall].
    destruct (armed_iteration s r Harmed) as (s' & Hit & Harmed').
    simpl. rewrite Hit. apply IH; [exact Harmed'|exact Hall|].
    exact (raising_iteration_reading s s' r Harmed Hr Herr Hit).
Qed.

(** C6, as the program has it.  In an iteration that processes a frame
    on which the classifier raises, the reading is replaced by the error
    reading: emotion [error], confidence 0, no faces, this frame's
    timestamp and the exception's text [str(e)] as error message (empty
    when that text is empty).  The iteration continues the loop, and the
    loop is still running, with an error reading in the store, after any
    further number of frames on which the classifier raises. *)
Theorem C6_classifier_error_contained
    (s : Server) (c : Capture) (c0 : Cascade) (frame : Frame) (m : string)
    (reads : list ReadOutcome) :
  detection_running s = true ->
  cap s = Some c -> is_opened c = true ->
  face_cascade s = Some c0 ->
  process_every_n_frames s <= frame_skip_count s + 1 ->
  classifier_error frame = Some m ->
  Forall raising reads ->
  exists s' : Server,
    detection_iteration s (ReadFrame frame) = (s', Continue) /\
    assoc "emotion" (current_emotion_data s') = Some (VStr "error") /\
    assoc "confidence" (current_emotion_data s') = Some (VFloat 0) /\
    assoc "faces_detected" (current_emotion_data s') = Some (VInt 0) /\
    assoc "timestamp" (current_emotion_data s') = Some (VStr (now frame)) /\
    assoc "error" (current_emotion_data s') = Some (VStr m) /\
    snd (detection_loop s' reads) = None /\
    detection_running (fst (detection_loop s' reads)) = true /\
    is_error_reading (current_emotion_data (fst (detection_loop s' reads))).
Proof.
  intros Hrun Hcap Hopen Hcasc Hskip Hm Hall.
  assert (Harmed : armed s).
  { unfold armed, camera_status. rewrite Hrun, Hcap, Hopen, Hcasc. auto. }
  destruct (armed_iteration s (ReadFrame frame) Harmed) as (s' & Hit & Harmed').
  exists s'. split; [exact Hit|].
  assert (Hdata : current_emotion_data s' = error_reading (now frame) m).
  { revert Hit. unfold detection_iteration. rewrite Hrun. simpl.
    destruct (Z.ltb_spec (frame_skip_count s + 1) (process_every_n_frames s)); [lia|].
    rewrite Hcap, Hopen. simpl.
    rewrite (classifier_error_process_frame _ c0 frame m); [|exact Hcasc|exact Hm].
    intros [= <-]. reflexivity. }
  rewrite Hdata. repeat (split; [reflexivity|]).
  apply raising_loop; [exact Harmed'|exact Hall|].
  rewrite Hdata. exists (now frame), m. reflexivity.
Qed.

Lemma C6_classifier_error_contained_witness :
  exists s' : Server,
    detection_iteration sample_running (ReadFrame failing_frame) = (s', Continue) /\
    assoc "emotion" (current_emotion_data s') = Some (VStr "error") /\
    assoc "confidence" (current_emotion_data s') = Some (VFloat 0) /\
    assoc "faces_detected" (current_emotion_data s') = Some (VInt 0) /\
    assoc "timestamp" (current_emotion_data s') = Some (VStr "2024-01-01T00:00:05") /\
    assoc "error" (current_emotion_data s') = Some (VStr "Input image must not be empty") /\
    snd (detection_loop s' (replicate 7 (ReadFrame failing_frame))) = None /\
    detection_running (fst (detection_loop s' (replicate 7 (ReadFrame failing_frame)))) = true /\
    is_error_reading
      (current_emotion_data (fst (detection_loop s' (replicate 7 (ReadFrame failing_frame))))).
Proof.
  apply (C6_classifier_error_contained sample_running (mkCapture true) sample_cascade
           failing_frame "Input image must not be empty"
           (replicate 7 (ReadFrame failing_frame))).
  - reflexivity.
  - reflexivity.
  - reflexivity.
  - reflexivity.
  - simpl. lia.
  - reflexivity.
  - repeat constructor; exists "Input image must not be empty"; reflexivity.
Defined.

(** C6 as written fails when the exception's text is empty: the error
    message stored is then the empty string. *)
Lemma C6_counterexample : ~ C6_as_stated.
Proof.
  intros H.
  destruct (H sample_running (mkCapture true) sample_cascade silent_error_frame ""
              eq_refl eq_refl eq_refl eq_refl ltac:(simpl; lia) eq_refl)
    as (s' & Hit & _ & _ & _ & _ & e & He & Hne).
  vm_compute in Hit. injection Hit as <-.
  vm_compute in He. injection He as <-.
  apply Hne. reflexivity.
Qed.

(** ** Lifecycle: start, stop and the loop's exit *)

Lemma start_when_running (s : Server) (w : StartEnv) :
  detection_running s = true -> start_camera_detection s w = (true, s).
Proof. intros H. unfold start_camera_detection. rewrite H. reflexivity. Qed.

Lemma starts_when_running (ws : list StartEnv) (s : Server) :
  detection_running s = true -> starts s ws = (replicate (length ws) true, s).
Proof.
  intros H. induction ws as [|w ws IH]; simpl; [reflexivity|].
  rewrite (start_when_running s w H), IH. reflexivity.
Qed.

Lemma count_snoc (f : Effect -> bool) (l : list Effect) (e : Effect) :
  count f (l ++ [e]) = (count f l + (if f e then 1 else 0))%nat.
Proof.
  unfold count. rewrite List.filter_app, length_app. simpl.
  destruct (f e); reflexivity.
Qed.

(** A successful start from the stopped state constructs the capture once
    and starts one thread. *)
Lemma start_from_stopped (s0 s : Server) (w : StartEnv) :
  detection_running s0 = false ->
  start_camera_detection s0 w = (true, s) ->
  detection_running s = true /\
  count is_video_capture (effects s) = S (count is_video_capture (effects s0)) /\
  count is_thread_start (effects s) = S (count is_thread_start (effects s0)).
Proof.
  intros Hidle. unfold start_camera_detection, initialize_face_cascade,
    initialize_camera, release_cap.
  rewrite Hidle.
  destruct (load_cascade w) as [|c]; [discriminate|].
  destruct (cascade_empty c); simpl; [discriminate|].
  destruct (open_camera w) as [|c' ok]; [discriminate|].
  destruct (is_opened c'); simpl; [|discriminate].
  destruct ok; [|discriminate].
  intros [= <-]. simpl. split; [reflexivity|].
  destruct (cap s0); simpl; rewrite !count_snoc; simpl; split; lia.
Qed.

(** C7. Once a start has brought the service to the running state, every
    further start returns success and leaves the service object as it is,
    whatever the collaborators would answer; over the first start and all
    the later ones the capture device is constructed exactly once and
    exactly one detection thread is started. *)
Theorem C7_start_idempotent (s0 s : Server) (w : StartEnv) (ws : list StartEnv) :
  detection_running s0 = false ->
  start_camera_detection s0 w = (true, s) ->
  starts s ws = (replicate (length ws) true, s) /\
  detection_running (snd (starts s ws)) = true /\
  count is_video_capture (effects (snd (starts s ws))) =
    S (count is_video_capture (effects s0)) /\
  count is_thread_start (effects (snd (starts s ws))) =
    S (count is_thread_start (effects s0)).
Proof.
  intros Hidle Hstart.
  destruct (start_from_stopped s0 s w Hidle Hstart) as (Hrun & Hopen & Hthr).
  rewrite (starts_when_running ws s Hrun). simpl. auto.
Qed.

Lemma C7_start_idempotent_witness :
  starts (snd (start_camera_detection fresh_server good_start))
      [good_start; no_camera_start; good_start] =
    ([true; true; true], snd (start_camera_detection fresh_server good_start)) /\
  detection_running
    (snd (starts (snd (start_camera_detection fresh_server good_start))
            [good_start; no_camera_start; good_start])) = true /\
  count is_video_capture
    (effects (snd (starts (snd (start_camera_detection fresh_server good_start))
                     [good_start; no_camera_start; good_start]))) = 1%nat /\
  count is_thread_start
    (effects (snd (starts (snd (start_camera_detection fresh_server good_start))
                     [good_start; no_camera_start; good_start]))) = 1%nat.
Proof.
  apply (C7_start_idempotent fresh_server
           (snd (start_camera_detection fresh_server good_start)) good_start
           [good_start; no_camera_start; good_start]); reflexivity.
Defined.

(** C8. When the service is stopped and the camera cannot be opened,
    [start_camera_detection] returns failure, the running flag stays
    false, no thread is started, and the status handler reports the camera
    as not connected. *)
Theorem C8_failed_open_stays_idle (s : Server) (w : StartEnv) (now : string) :
  detection_running s = false ->
  cannot_open (open_camera w) = true ->
  cascade_loads (load_cascade w) = true \/ camera_status s = false ->
  fst (start_camera_detection s w) = false /\
  detection_running (snd (start_camera_detection s w)) = false /\
  count is_thread_start (effects (snd (start_camera_detection s w))) =
    count is_thread_start (effects s) /\
  assoc "detection_running" (get_status (snd (start_camera_detection s w)) now) =
    Some (VBool false) /\
  assoc "camera_connected" (get_status (snd (start_camera_detection s w)) now) =
    Some (VBool false).
Proof.
  intros Hidle Hcam Hpre.
  unfold start_camera_detection, initialize_face_cascade, initialize_camera,
    release_cap, get_status, camera_status in *.
  rewrite Hidle.
  destruct (load_cascade w) as [|c0]; simpl in *.
  - destruct Hpre as [Hpre|Hpre]; [discriminate|]. rewrite Hidle, Hpre. auto.
  - destruct (cascade_empty c0); simpl in *.
    + destruct Hpre as [Hpre|Hpre]; [discriminate|]. rewrite Hidle, Hpre. auto.
    + destruct (open_camera w) as [|c ok]; simpl in *.
      * destruct (cap s) eqn:Hcap; simpl; rewrite ?count_snoc, ?Hidle, ?Hcap; simpl;
          repeat split; try reflexivity; lia.
      * destruct (is_opened c) eqn:Hc; [discriminate|]. simpl.
        destruct (cap s) eqn:Hcap; simpl; rewrite ?count_snoc, ?Hidle, ?Hc; simpl;
          repeat split; try reflexivity; lia.
Qed.

Lemma C8_failed_open_stays_idle_witness :
  fst (start_camera_detection fresh_server no_camera_start) = false /\
  detection_running (snd (start_camera_detection fresh_server no_camera_start)) = false /\
  count is_thread_start (effects (snd (start_camera_detection fresh_server no_camera_start))) =
    count is_thread_start (effects fresh_server) /\
  assoc "detection_running"
    (get_status (snd (start_camera_detection fresh_server no_camera_start))
       "2024-01-01T00:00:09") = Some (VBool false) /\
  assoc "camera_connected"
    (get_status (snd (start_camera_detection fresh_server no_camera_start))
       "2024-01-01T00:00:09") = Some (VBool false).
Proof.
  apply (C8_failed_open_stays_idle fresh_server no_camera_start "2024-01-01T00:00:09").
  - reflexivity.
  - reflexivity.
  - left. reflexivity.
Defined.

(** The [break] of the loop leaves every field but the frame counter as it
    was; the running flag in particular stays set. *)
Lemma break_keeps_flag (s : Server) (r : ReadOutcome) :
  detection_running s = true ->
  process_every_n_frames s <= frame_skip_count s + 1 ->
  camera_status s = false ->
  detection_iteration s r = (set_frame_skip_count 0 s, Break).
Proof.
  intros Hrun Hskip Hcam. unfold detection_iteration, camera_status in *.
  rewrite Hrun. simpl.
  destruct (Z.ltb_spec (frame_skip_count s + 1) (process_every_n_frames s)); [lia|].
  destruct (cap s) as [c|]; [rewrite Hcam|]; reflexivity.
Qed.

(** C3, what the program does.  After a successful start the camera fails;
    at its next processing iteration the loop leaves through [break], so no
    detection thread is left, yet [detection_running] still reads true, the
    status handler reports detection as running, and a further start
    request returns at once without starting anything. *)
Theorem C3_break_keeps_detection_running :
  let y := run (boot 5001 5002 "2024-01-01T00:00:00" 0) camera_lost_schedule in
  live_loops y = O /\
  detection_running (srv y) = true /\
  assoc "detection_running" (get_status (srv y) "2024-01-01T00:00:09") =
    Some (VBool true) /\
  assoc "camera_connected" (get_status (srv y) "2024-01-01T00:00:09") =
    Some (VBool false) /\
  effects (srv y) = [EVideoCapture; EThreadStart].
Proof. vm_compute. repeat split; reflexivity. Qed.

(** ** run_server *)

(** C9, what the program does.  The primary port is in use and the
    fallback port is free.  [app.run] leaves with [SystemExit(1)], which
    neither [except OSError] nor [except Exception] catches: [run_server]
    has handed only the primary port to [app.run], the fallback port is
    never tried although it would serve, and the exit leaves
    [run_server]. *)
Theorem C9_busy_port_skips_fallback :
  primary_busy (port fresh_server) = Raises system_exit_1 /\
  primary_busy (fallback_port fresh_server) = Serves /\
  tried (run_server fresh_server primary_busy) = [5001] /\
  outcome (run_server fresh_server primary_busy) = Raises system_exit_1.
Proof. vm_compute. repeat split; reflexivity. Qed.

(** ** The reading store under interleaved readers and writers *)

Module StoreFacts.
Import Store.
Local Open Scope nat_scope.

Lemma thread_ok_grow (req : Reading -> Prop) (h : list Reading) (d : Reading) (t : Thread) :
  thread_ok req h t -> thread_ok req (h ++ [d]) t.
Proof.
  destruct t; simpl; try exact id.
  intros (d' & Hp & Hout). exists d'. split; [|exact Hout].
  apply lookup_app_l_Some, Hp.
Qed.

Lemma data_set_thread (req : Reading -> Prop) (r0 : Reading) (s : State) (i : nat) (t : Thread) :
  inv_data req r0 s -> thread_ok req (heap s) t -> inv_data req r0 (set_thread i t s).
Proof.
  intros [Hh Hc Hr Hp Ht] Hok. constructor; simpl; try assumption.
  intros j t' Hj. apply list_lookup_insert_Some in Hj as [(_ & <- & _)|[_ Hj]].
  - exact Hok.
  - exact (Ht j t' Hj).
Qed.

Lemma data_set_lock (req : Reading -> Prop) (r0 : Reading) (s : State) (l : option nat) :
  inv_data req r0 s -> inv_data req r0 (set_lock l s).
Proof. intros [Hh Hc Hr Hp Ht]. constructor; simpl; assumption. Qed.

Lemma data_respond (req : Reading -> Prop) (r0 : Reading) (s : State) (r : Reading) :
  inv_data req r0 s -> r ∈ heap s -> inv_data req r0 (respond r s).
Proof.
  intros [Hh Hc Hr Hp Ht] Hin. constructor; simpl; try assumption.
  intros r' Hr'. apply elem_of_app in Hr' as [Hr'|Hr'].
  - exact (Hr r' Hr').
  - apply list_elem_of_singleton in Hr' as ->. exact Hin.
Qed.

Lemma data_publish (req : Reading -> Prop) (r0 : Reading) (s : State) (d : Reading) :
  inv_data req r0 s -> req d -> inv_data req r0 (publish d s).
Proof.
  intros [Hh Hc Hr Hp Ht] Hd. constructor; simpl.
  - rewrite Hh. reflexivity.
  - rewrite Hh, length_app. simpl. lia.
  - intros r Hin. apply elem_of_app. left. exact (Hr r Hin).
  - intros d' Hin. apply elem_of_app in Hin as [Hin|Hin].
    + exact (Hp d' Hin).
    + apply list_elem_of_singleton in Hin as ->. exact Hd.
  - intros j t Hj. apply thread_ok_grow. exact (Ht j t Hj).
Qed.

(** Every step keeps the data invariant. *)
Lemma step_data (req : Reading -> Prop) (r0 : Reading) (s : State) (i : nat) (c : Choice) :
  inv_data req r0 s ->
  (forall d : Reading, c = BeginWrite d -> req d) ->
  inv_data req r0 (step s i c).
Proof.
  intros Hinv Hreq. unfold step.
  destruct (threads s !! i) as [t|] eqn:Hi; [|exact Hinv].
  pose proof (inv_threads _ _ _ Hinv i t Hi) as Hok.
  destruct t as [| | |p out|d|d n|]; simpl in Hok.
  - destruct c as [|d|]; [| |exact Hinv].
    + apply data_set_thread; [exact Hinv|exact I].
    + apply data_set_thread; [exact Hinv|]. simpl. apply Hreq. reflexivity.
  - destruct (lock s); [exact Hinv|].
    apply data_set_lock, data_set_thread; [exact Hinv|exact I].
  - apply data_set_thread; [exact Hinv|]. simpl.
    destruct (lookup_lt_is_Some_2 (heap s) (cur s)) as [d Hd].
    { rewrite (inv_heap _ _ _ Hinv), (inv_cur _ _ _ Hinv). simpl. lia. }
    exists d. split; [exact Hd|reflexivity].
  - destruct Hok as (d & Hp & Hout). rewrite Hp.
    destruct (d !! length out) as [item|] eqn:Hitem.
    + apply data_set_thread; [exact Hinv|]. simpl. exists d. split; [exact Hp|].
      rewrite length_app. simpl. rewrite Nat.add_1_r.
      rewrite (take_S_r d (length out) item Hitem), <- Hout. reflexivity.
    + apply data_respond.
      * apply data_set_thread; [exact Hinv|exact I].
      * simpl. rewrite Hout, take_ge by (apply lookup_ge_None_1, Hitem).
        exact (list_elem_of_lookup_2 _ _ _ Hp).
  - destruct (lock s); [exact Hinv|].
    apply data_set_lock, data_set_thread; [exact Hinv|exact Hok].
  - destruct (Nat.ltb_spec n (length d)) as [Hlt|Hge].
    + apply data_set_thread; [exact Hinv|exact Hok].
    + rewrite take_ge by exact Hge.
      apply data_publish; [|exact Hok].
      apply data_set_thread; [exact Hinv|exact I].
  - apply data_set_lock, data_set_thread; [exact Hinv|exact I].
Qed.

Lemma lock_set_thread (s : State) (i : nat) (t : Thread) :
  inv_lock s -> (in_section t = true -> lock s = Some i) ->
  inv_lock (set_thread i t s).
Proof.
  intros Hinv Ht j t' Hj Hsec. simpl in *.
  apply list_lookup_insert_Some in Hj as [(<- & <- & _)|[_ Hj]].
  - exact (Ht Hsec).
  - exact (Hinv j t' Hj Hsec).
Qed.

Lemma lock_acquire (s : State) (i : nat) (t : Thread) :
  inv_lock s -> lock s = None -> inv_lock (set_lock (Some i) (set_thread i t s)).
Proof.
  intros Hinv Hfree j t' Hj Hsec. simpl in *.
  apply list_lookup_insert_Some in Hj as [(<- & _ & _)|[_ Hj]]; [reflexivity|].
  pose proof (Hinv j t' Hj Hsec) as Hheld. congruence.
Qed.

Lemma lock_release (s : State) (i : nat) (t : Thread) :
  inv_lock s -> lock s = Some i -> in_section t = false ->
  inv_lock (set_lock None (set_thread i t s)).
Proof.
  intros Hinv Hheld Hout j t' Hj Hsec. simpl in *.
  apply list_lookup_insert_Some in Hj as [(_ & <- & _)|[Hne Hj]]; [congruence|].
  pose proof (Hinv j t' Hj Hsec) as Hheld'. congruence.
Qed.

(** Every step keeps mutual exclusion. *)
Lemma step_lock (s : State) (i : nat) (c : Choice) :
  inv_lock s -> inv_lock (step s i c).
Proof.
  intros Hinv. unfold step.
  destruct (threads s !! i) as [t|] eqn:Hi; [|exact Hinv].
  pose proof (Hinv i t Hi) as Hheld.
  destruct t as [| | |p out|d|d n|]; simpl in Hheld.
  - destruct c; [| |exact Hinv]; apply lock_set_thread; try exact Hinv; discriminate.
  - destruct (lock s) eqn:Hl; [exact Hinv|]. apply lock_acquire; assumption.
  - apply lock_set_thread; [exact Hinv|]. intros _. exact (Hheld eq_refl).
  - destruct (heap s !! p) as [d|]; [|exact Hinv].
    destruct (d !! length out).
    + apply lock_set_thread; [exact Hinv|]. intros _. exact (Hheld eq_refl).
    + change (inv_lock (set_thread i Unlock s)).
      apply lock_set_thread; [exact Hinv|]. intros _. exact (Hheld eq_refl).
  - destruct (lock s) eqn:Hl; [exact Hinv|]. apply lock_acquire; assumption.
  - destruct (n <? length d).
    + apply lock_set_thread; [exact Hinv|]. intros _. exact (Hheld eq_refl).
    + change (inv_lock (set_thread i Unlock s)).
      apply lock_set_thread; [exact Hinv|]. intros _. exact (Hheld eq_refl).
  - apply lock_release; [exact Hinv|exact (Hheld eq_refl)|reflexivity].
Qed.

Lemma inv_data_weaken (req req' : Reading -> Prop) (r0 : Reading) (s : State) :
  (forall d : Reading, req d -> req' d) -> inv_data req r0 s -> inv_data req' r0 s.
Proof.
  intros Hsub [Hh Hc Hr Hp Ht]. constructor; try assumption.
  - intros d Hd. exact (Hsub d (Hp d Hd)).
  - intros j t Hj. specialize (Ht j t Hj).
    destruct t; simpl in *; try exact Ht; exact (Hsub _ Ht).
Qed.

Lemma exec_snoc (s : State) (sched : list (nat * Choice)) (i : nat) (c : Choice) :
  exec s (sched ++ [(i, c)]) = step (exec s sched) i c.
Proof. unfold exec. rewrite fold_left_app. reflexivity. Qed.

Lemma init_data (req : Reading -> Prop) (r0 : Reading) (n : nat) :
  inv_data req r0 (init r0 n).
Proof.
  constructor; simpl; try reflexivity.
  - intros r Hr. inversion Hr.
  - intros d Hd. inversion Hd.
  - intros i t Hi. apply lookup_replicate_1 in Hi as [-> _]. exact I.
Qed.

Lemma init_lock (r0 : Reading) (n : nat) : inv_lock (init r0 n).
Proof.
  intros i t Hi Hsec. simpl in Hi.
  apply lookup_replicate_1 in Hi as [-> _]. discriminate.
Qed.

(** Both invariants hold after every schedule. *)
Lemma exec_inv (r0 : Reading) (n : nat) (sched : list (nat * Choice)) :
  inv_data (requested sched) r0 (exec (init r0 n) sched) /\
  inv_lock (exec (init r0 n) sched).
Proof.
  induction sched as [|[i c] sched [IHd IHl]] using rev_ind.
  - split; [apply init_data|apply init_lock].
  - rewrite exec_snoc. split; [|apply step_lock, IHl].
    apply step_data.
    + apply (inv_data_weaken (requested sched)); [|exact IHd].
      intros d [j Hj]. exists j. apply elem_of_app. left. exact Hj.
    + intros d ->. exists i. apply elem_of_app. right.
      apply list_elem_of_singleton. reflexivity.
Qed.

(** C1. After any interleaving of the steps of any number of readers
    and writers: the store holds exactly one reading, the initial one or
    else the dictionary of the latest completed assignment; every body
    returned by a reader is, entry for entry, the initial reading or one
    dictionary that a single writer was asked to publish and has
    published; and no two threads are inside a critical section of the
    data lock at once. *)
Theorem C1_readers_see_whole_readings
    (r0 : Reading) (n : nat) (sched : list (nat * Choice)) :
  let s := exec (init r0 n) sched in
  current s = last (r0 :: published s) /\
  (exists r : Reading, current s = Some r) /\
  (forall r : Reading, r ∈ responses s -> r = r0 \/ r ∈ published s) /\
  (forall d : Reading, d ∈ published s -> requested sched d) /\
  (forall (i j : nat) (ti tj : Thread),
     threads s !! i = Some ti -> threads s !! j = Some tj ->
     in_section ti = true -> in_section tj = true -> i = j).
Proof.
  intros s. destruct (exec_inv r0 n sched) as [Hd Hl]. fold s in Hd, Hl.
  assert (Hcur : current s = last (r0 :: published s)).
  { unfold current. rewrite last_lookup, (inv_heap _ _ _ Hd), (inv_cur _ _ _ Hd).
    reflexivity. }
  split; [exact Hcur|]. split.
  { unfold current. apply lookup_lt_is_Some_2.
    rewrite (inv_heap _ _ _ Hd), (inv_cur _ _ _ Hd). simpl. lia. }
  split.
  { intros r Hr. apply (inv_responses _ _ _ Hd) in Hr.
    rewrite (inv_heap _ _ _ Hd) in Hr. apply elem_of_cons in Hr. exact Hr. }
  split; [exact (inv_published _ _ _ Hd)|].
  intros i j ti tj Hi Hj Hsi Hsj.
  pose proof (Hl i ti Hi Hsi) as H1. pose proof (Hl j tj Hj Hsj) as H2.
  congruence.
Qed.

(** The sample schedule: the first request is answered with the
    placeholder, the second with the reading published in between. *)
Example sample_schedule_responses :
  responses (exec (init (placeholder "t0") 2) sample_schedule) =
    [placeholder "t0"; no_face_reading "t1"] /\
  current (exec (init (placeholder "t0") 2) sample_schedule) =
    Some (no_face_reading "t1").
Proof. vm_compute. split; reflexivity. Qed.
End StoreFacts.

(** * Further properties of the service *)

(** ** Start, stop and the handlers *)

Lemma set_frame_skip_count_twice (a b : Z) (s : Server) :
  set_frame_skip_count a (set_frame_skip_count b s) = set_frame_skip_count a s.
Proof. reflexivity. Qed.

Lemma set_frame_skip_count_same (s : Server) :
  set_frame_skip_count (frame_skip_count s) s = s.
Proof. destruct s; reflexivity. Qed.

(** The flag after [start_camera_detection] is what the call returned. *)
Lemma start_flag (s : Server) (w : StartEnv) :
  detection_running (snd (start_camera_detection s w)) =
  fst (start_camera_detection s w).
Proof.
  unfold start_camera_detection, initialize_face_cascade, initialize_camera, release_cap.
  destruct (detection_running s) eqn:Hrun; [exact Hrun|].
  destruct (load_cascade w) as [|c0]; simpl; [exact Hrun|].
  destruct (cascade_empty c0); simpl; [exact Hrun|].
  destruct (open_camera w) as [|c ok]; simpl.
  - destruct (cap s); exact Hrun.
  - destruct (is_opened c); simpl; [|destruct (cap s); exact Hrun].
    destruct ok; simpl; [reflexivity|destruct (cap s); exact Hrun].
Qed.

Lemma start_success (s : Server) (w : StartEnv) :
  fst (start_camera_detection s w) =
  (detection_running s ||
   (cascade_loads (load_cascade w) && camera_opens (open_camera w)))%bool.
Proof.
  unfold start_camera_detection, initialize_face_cascade, initialize_camera.
  destruct (detection_running s); [reflexivity|].
  destruct (load_cascade w) as [|c0]; simpl; [reflexivity|].
  destruct (cascade_empty c0); simpl; [reflexivity|].
  destruct (open_camera w) as [|c ok]; simpl; [reflexivity|].
  destruct (is_opened c); simpl; [|reflexivity].
  destruct ok; reflexivity.
Qed.

Lemma stop_fields (s : Server) :
  detection_running (stop_camera_detection s) = false /\
  cap (stop_camera_detection s) = None.
Proof.
  unfold stop_camera_detection. simpl.
  destruct (cap s) eqn:Hcap; simpl; auto.
Qed.

(** X1. [stop_camera_detection] always leaves the flag cleared and no
    camera handle; it releases the handle exactly when one was held, so a
    second stop changes nothing and releases nothing. *)
Theorem stop_camera_detection_idempotent (s : Server) :
  detection_running (stop_camera_detection s) = false /\
  cap (stop_camera_detection s) = None /\
  count is_release (effects (stop_camera_detection s)) =
    (count is_release (effects s) + match cap s with Some _ => 1 | None => 0 end)%nat /\
  stop_camera_detection (stop_camera_detection s) = stop_camera_detection s.
Proof.
  unfold stop_camera_detection. simpl.
  destruct (cap s) eqn:Hcap; simpl.
  - rewrite count_snoc. simpl. auto.
  - rewrite Hcap. simpl. split; [reflexivity|]. split; [reflexivity|].
    split; [lia|reflexivity].
Qed.

(** X2. The value returned by [start_camera_detection] is true exactly
    when the service was already running or both the cascade loads and the
    camera opens, and the running flag after the call always equals the
    value returned. *)
Theorem start_camera_detection_result (s : Server) (w : StartEnv) :
  (fst (start_camera_detection s w) = true <->
   detection_running s = true \/
   (cascade_loads (load_cascade w) = true /\ camera_opens (open_camera w) = true)) /\
  detection_running (snd (start_camera_detection s w)) =
    fst (start_camera_detection s w).
Proof.
  split; [|apply start_flag].
  rewrite start_success, orb_true_iff, andb_true_iff. reflexivity.
Qed.

(** X3. After a stop, whatever the state was before it, a start whose
    cascade loads and whose camera opens succeeds: the service runs again
    with the camera connected, one capture was constructed and one thread
    started. *)
Theorem restart_after_stop (s : Server) (w : StartEnv) :
  cascade_loads (load_cascade w) = true ->
  camera_opens (open_camera w) = true ->
  let s' := snd (start_camera_detection (stop_camera_detection s) w) in
  fst (start_camera_detection (stop_camera_detection s) w) = true /\
  detection_running s' = true /\
  camera_status s' = true /\
  count is_video_capture (effects s') =
    S (count is_video_capture (effects (stop_camera_detection s))) /\
  count is_thread_start (effects s') =
    S (count is_thread_start (effects (stop_camera_detection s))).
Proof.
  intros Hcasc Hcam s'.
  destruct (stop_fields s) as [Hidle Hnone].
  assert (Hok : fst (start_camera_detection (stop_camera_detection s) w) = true).
  { rewrite start_success, Hcasc, Hcam. apply orb_true_r. }
  destruct (start_camera_detection (stop_camera_detection s) w) as [ok s1] eqn:Hstart.
  simpl in Hok. subst ok. subst s'. simpl.
  destruct (start_from_stopped _ _ _ Hidle Hstart) as (Hrun & Hcap & Hthr).
  split; [reflexivity|]. split; [exact Hrun|]. split; [|split; assumption].
  revert Hstart.
  unfold start_camera_detection, initialize_face_cascade, initialize_camera, release_cap.
  rewrite Hidle.
  destruct (load_cascade w) as [|c0]; [discriminate|].
  simpl in Hcasc. destruct (cascade_empty c0); [discriminate|]. simpl.
  destruct (open_camera w) as [|c ok]; [discriminate|].
  simpl in Hcam. apply andb_true_iff in Hcam as [Hc Hset].
  rewrite Hc, Hset. simpl.
  intros [= <-]. unfold camera_status. simpl. exact Hc.
Qed.

Lemma restart_after_stop_witness :
  let s' := snd (start_camera_detection (stop_camera_detection sample_running) good_start) in
  fst (start_camera_detection (stop_camera_detection sample_running) good_start) = true /\
  detection_running s' = true /\
  camera_status s' = true /\
  count is_video_capture (effects s') =
    S (count is_video_capture (effects (stop_camera_detection sample_running))) /\
  count is_thread_start (effects s') =
    S (count is_thread_start (effects (stop_camera_detection sample_running))).
Proof.
  apply (restart_after_stop sample_running good_start); reflexivity.
Defined.

(** X4. The [/start] handler answers 200 exactly when detection is running
    after the request, and 500 otherwise. *)
Theorem start_detection_status (s : Server) (w : StartEnv) :
  (status (fst (start_detection s w)) = 200 <->
   detection_running (snd (start_detection s w)) = true) /\
  (status (fst (start_detection s w)) = 500 <->
   detection_running (snd (start_detection s w)) = false) /\
  snd (start_detection s w) = snd (start_camera_detection s w).
Proof.
  unfold start_detection.
  pose proof (start_flag s w) as Hflag.
  destruct (start_camera_detection s w) as [ok s']. simpl in Hflag.
  destruct ok; simpl; rewrite Hflag; repeat split; intros H;
    try reflexivity; try discriminate H.
Qed.

(** X5. The [/stop] handler always answers 200, and a status request
    served afterwards reports detection as not running and the camera as
    not connected. *)
Theorem stop_detection_status (s : Server) (now : string) :
  status (fst (stop_detection s)) = 200 /\
  assoc "detection_running" (get_status (snd (stop_detection s)) now) =
    Some (VBool false) /\
  assoc "camera_connected" (get_status (snd (stop_detection s)) now) =
    Some (VBool false).
Proof.
  unfold stop_detection, get_status, camera_status. simpl.
  destruct (stop_fields s) as [-> ->]. auto.
Qed.

(** X6. Once the service is stopped, the detection loop leaves at its next
    test: it reports the exit and has changed nothing, whatever the camera
    would have delivered. *)
Theorem loop_exits_after_stop (s : Server) (r : ReadOutcome) (reads : list ReadOutcome) :
  detection_loop (stop_camera_detection s) (r :: reads) =
    (stop_camera_detection s, Some Exit).
Proof.
  destruct (stop_fields s) as [Hidle _].
  simpl. unfold detection_iteration. rewrite Hidle. reflexivity.
Qed.

(** ** The detection loop *)

Lemma skipped_iterations (skipped : list ReadOutcome) :
  forall (s : Server) (rest : list ReadOutcome),
    detection_running s = true ->
    frame_skip_count s + Z.of_nat (length skipped) < process_every_n_frames s ->
    detection_loop s (skipped ++ rest) =
    detection_loop
      (set_frame_skip_count (frame_skip_count s + Z.of_nat (length skipped)) s) rest.
Proof.
  induction skipped as [|r skipped IH]; intros s rest Hrun Hlt.
  - simpl. rewrite Z.add_0_r, set_frame_skip_count_same. reflexivity.
  - simpl app. simpl detection_loop. unfold detection_iteration. rewrite Hrun. simpl negb.
    cbv iota zeta. change (length (r :: skipped)) with (S (length skipped)) in *.
    change (frame_skip_count (set_frame_skip_count (frame_skip_count s + 1) s))
      with (frame_skip_count s + 1).
    change (process_every_n_frames (set_frame_skip_count (frame_skip_count s + 1) s))
      with (process_every_n_frames s).
    destruct (Z.ltb_spec (frame_skip_count s + 1) (process_every_n_frames s)); [|lia].
    rewrite IH.
    + simpl. rewrite set_frame_skip_count_twice. f_equal. f_equal. lia.
    + exact Hrun.
    + simpl. lia.
Qed.

(** X7. Throttling: starting with the frame counter at 0, the loop lets
    [process_every_n_frames - 1] iterations pass without touching the
    camera or the reading, and the next iteration captures a frame and
    processes it. *)
Theorem loop_processes_every_nth (s : Server) (c : Capture)
    (skipped : list ReadOutcome) (frame : Frame) :
  detection_running s = true ->
  cap s = Some c -> is_opened c = true ->
  frame_skip_count s = 0 ->
  Z.of_nat (length skipped) = process_every_n_frames s - 1 ->
  detection_loop s skipped = (set_frame_skip_count (process_every_n_frames s - 1) s, None) /\
  detection_loop s (skipped ++ [ReadFrame frame]) = (process_frame s frame, None).
Proof.
  intros Hrun Hcap Hopen Hzero Hlen.
  split.
  - rewrite <- (app_nil_r skipped) at 1.
    rewrite skipped_iterations by (try exact Hrun; lia).
    simpl. do 2 f_equal. lia.
  - rewrite skipped_iterations by (try exact Hrun; lia).
    rewrite Hzero, Hlen. simpl detection_loop. unfold detection_iteration.
    simpl. rewrite Hrun. simpl.
    destruct (Z.ltb_spec (0 + (process_every_n_frames s - 1) + 1)
                (process_every_n_frames s)); [lia|].
    rewrite Hcap, Hopen. simpl.
    replace (set_frame_skip_count 0
               (set_frame_skip_count (0 + (process_every_n_frames s - 1) + 1)
                  (set_frame_skip_count (0 + (process_every_n_frames s - 1)) s)))
      with s; [reflexivity|].
    rewrite !set_frame_skip_count_twice, <- Hzero. symmetry.
    apply set_frame_skip_count_same.
Qed.

Lemma loop_processes_every_nth_witness :
  detection_loop sample_fresh_cycle [ReadFrame empty_frame; ReadFailed] =
    (set_frame_skip_count (process_every_n_frames sample_fresh_cycle - 1)
       sample_fresh_cycle, None) /\
  detection_loop sample_fresh_cycle
      ([ReadFrame empty_frame; ReadFailed] ++ [ReadFrame happy_frame]) =
    (process_frame sample_fresh_cycle happy_frame, None).
Proof.
  apply (loop_processes_every_nth sample_fresh_cycle (mkCapture true)
           [ReadFrame empty_frame; ReadFailed] happy_frame); reflexivity.
Defined.

(** X8. An iteration of the loop never opens or releases the camera,
    never starts a thread and never changes the running flag, the handle,
    the cascade or the throttling factor; and unless it captured a frame it
    also leaves the reading and the time of the last success as they
    were. *)
Theorem detection_iteration_frame (s : Server) (r : ReadOutcome) :
  let s' := fst (detection_iteration s r) in
  (effects s' = effects s /\
   detection_running s' = detection_running s /\
   cap s' = cap s /\
   face_cascade s' = face_cascade s /\
   process_every_n_frames s' = process_every_n_frames s) /\
  (no_frame r = true ->
   current_emotion_data s' = current_emotion_data s /\
   last_successful_detection s' = last_successful_detection s).
Proof.
  unfold detection_iteration.
  destruct (detection_running s) eqn:Hrun; simpl; [|rewrite ?Hrun; auto 10].
  destruct (frame_skip_count s + 1 <? process_every_n_frames s); simpl;
    [rewrite ?Hrun; auto 10|].
  destruct (cap s) as [c|] eqn:Hcap; simpl; [|rewrite ?Hcap, ?Hrun; auto 10].
  destruct (is_opened c); simpl; [|rewrite ?Hcap, ?Hrun; auto 10].
  destruct r as [m| |frame]; simpl;
    [rewrite ?Hcap, ?Hrun; auto 10|rewrite ?Hcap, ?Hrun; auto 10|].
  destruct (process_frame_writes
              (set_frame_skip_count 0 (set_frame_skip_count (frame_skip_count s + 1) s))
              frame) as (rd & t & ->).
  simpl. rewrite Hcap, Hrun. split; [auto 10|]. intros H; discriminate H.
Qed.

(** ** process_frame: every outcome *)

(** X9. [process_frame] ends in one of four ways: it leaves the reading
    as it was; it stores the no-face reading; it stores an error reading;
    or it stores a success reading for at least one face.  Every reading it
    stores carries the timestamp taken for this frame, and the time of the
    last successful detection moves, to this frame's clock reading, in the
    success case only. *)
Theorem process_frame_outcomes (s : Server) (frame : Frame) :
  let s' := process_frame s frame in
  (current_emotion_data s' = current_emotion_data s /\
   last_successful_detection s' = last_successful_detection s) \/
  (current_emotion_data s' = no_face_reading (now frame) /\
   last_successful_detection s' = last_successful_detection s) \/
  (exists m : string,
     current_emotion_data s' = error_reading (now frame) m /\
     last_successful_detection s' = last_successful_detection s) \/
  (exists (label : string) (conf : Q) (n : nat) (scores : list (string * Q)),
     current_emotion_data s' =
       success_reading label (VFloat conf) (now frame) (Z.of_nat (S n)) (VScores scores) /\
     last_successful_detection s' = clock frame).
Proof.
  unfold process_frame, process_frame_try.
  destruct (cvt_gray frame) as [u|m]; [|right; right; left; exists m; auto].
  destruct (face_cascade s); [|right; right; left; eexists; split; reflexivity].
  destruct (detect frame) as [faces|m]; [|right; right; left; exists m; auto].
  destruct faces as [|f0 faces']; [right; left; auto|].
  change (length (f0 :: faces') =? 0)%nat with false. cbv iota.
  destruct (py_max face_area (f0 :: faces')) as [largest|];
    [|right; right; left; eexists; split; reflexivity].
  destruct (analyze frame largest) as [[|[|r0 rest]]|m];
    [left; auto|left; auto| |right; right; left; exists m; auto].
  cbv zeta.
  destruct (assoc (dominant_emotion r0) (emotion r0)) as [conf|];
    [|right; right; left; eexists; split; reflexivity].
  right. right. right.
  exists (dominant_emotion r0), conf, (length faces'), (emotion r0).
  rewrite !convert_numpy_types_id. split; reflexivity.
Qed.

(** X10. When the classifier names a dominant label for which its score
    table has no entry, the lookup fails and [process_frame] stores an error
    reading; nothing else changes, in particular not the time of the last
    successful detection. *)
Theorem missing_score_gives_error
    (s : Server) (frame : Frame) (c0 : Cascade) (faces : list Region)
    (largest : Region) (a : Analysis) (rest : list Analysis) :
  cvt_gray frame = Ok tt ->
  face_cascade s = Some c0 ->
  detect frame = Ok faces ->
  py_max face_area faces = Some largest ->
  analyze frame largest = Ok (RList (a :: rest)) ->
  assoc (dominant_emotion a) (emotion a) = None ->
  exists m : string,
    process_frame s frame = set_current_emotion_data (error_reading (now frame) m) s.
Proof.
  intros Hgray Hcasc Hdet Hmax Hres Hmiss.
  unfold process_frame, process_frame_try.
  rewrite Hgray, Hcasc, Hdet, (py_max_nonempty _ _ _ Hmax), Hmax, Hres.
  cbv zeta. rewrite Hmiss. eexists. reflexivity.
Qed.

Lemma missing_score_gives_error_witness :
  exists m : string,
    process_frame sample_running mislabelled_frame =
      set_current_emotion_data (error_reading (now mislabelled_frame) m) sample_running.
Proof.
  apply (missing_score_gives_error sample_running mislabelled_frame sample_cascade
           [big_face] big_face (mkAnalysis happy_scores "surprise") []);
    reflexivity.
Defined.

(** X11. When the grey conversion raises, or the face detector raises
    with a cascade loaded, [process_frame] stores the error reading with
    the text of that exception and changes nothing else. *)
Theorem detector_failure_gives_error
    (s : Server) (frame : Frame) (c0 : Cascade) (m : string) :
  cvt_gray frame = Raise m \/
  (cvt_gray frame = Ok tt /\ face_cascade s = Some c0 /\ detect frame = Raise m) ->
  process_frame s frame = set_current_emotion_data (error_reading (now frame) m) s.
Proof.
  unfold process_frame, process_frame_try.
  intros [Hgray|(Hgray & Hcasc & Hdet)].
  - rewrite Hgray. reflexivity.
  - rewrite Hgray, Hcasc, Hdet. reflexivity.
Qed.

Lemma detector_failure_gives_error_witness :
  process_frame sample_running undetectable_frame =
    set_current_emotion_data
      (error_reading (now undetectable_frame) "OpenCV: detectMultiScale failed")
      sample_running.
Proof.
  apply (detector_failure_gives_error sample_running undetectable_frame sample_cascade
           "OpenCV: detectMultiScale failed").
  right. repeat split; reflexivity.
Defined.

(** ** Invariants of the whole service *)

(** What [start_camera_detection] leaves alone. *)
Lemma start_keeps_throttle (s : Server) (w : StartEnv) :
  frame_skip_count (snd (start_camera_detection s w)) = frame_skip_count s /\
  process_every_n_frames (snd (start_camera_detection s w)) = process_every_n_frames s.
Proof.
  unfold start_camera_detection, initialize_face_cascade, initialize_camera, release_cap.
  destruct (detection_running s); [auto|].
  destruct (load_cascade w) as [|c]; [auto|].
  destruct (cascade_empty c); simpl; [auto|].
  destruct (cap s); destruct (open_camera w) as [|c' ok]; simpl; auto;
    destruct (is_opened c'); simpl; auto; destruct ok; auto.
Qed.

Lemma stop_keeps_throttle (s : Server) :
  frame_skip_count (stop_camera_detection s) = frame_skip_count s /\
  process_every_n_frames (stop_camera_detection s) = process_every_n_frames s.
Proof. unfold stop_camera_detection. simpl. destruct (cap s); auto. Qed.

Lemma iteration_keeps_throttle (s : Server) (r : ReadOutcome) :
  process_every_n_frames s = 3 ->
  0 <= frame_skip_count s < 3 ->
  process_every_n_frames (fst (detection_iteration s r)) = 3 /\
  0 <= frame_skip_count (fst (detection_iteration s r)) < 3.
Proof.
  intros Hn Hc. unfold detection_iteration.
  destruct (detection_running s); simpl; [|auto].
  rewrite Hn.
  destruct (Z.ltb_spec (frame_skip_count s + 1) 3); simpl; [split; [exact Hn|lia]|].
  destruct (cap s) as [c|]; simpl; [|split; [exact Hn|lia]].
  destruct (is_opened c); simpl; [|split; [exact Hn|lia]].
  destruct r as [m| |frame]; simpl; try (split; [exact Hn|lia]).
  destruct (process_frame_writes
              (set_frame_skip_count 0 (set_frame_skip_count (frame_skip_count s + 1) s))
              frame) as (rd & t & ->).
  simpl. split; [exact Hn|lia].
Qed.

Lemma step_keeps_throttle (y : System) (o : Op) :
  process_every_n_frames (srv y) = 3 ->
  0 <= frame_skip_count (srv y) < 3 ->
  process_every_n_frames (srv (step y o)) = 3 /\
  0 <= frame_skip_count (srv (step y o)) < 3.
Proof.
  intros Hn Hc. destruct o as [w| |r|]; simpl.
  - destruct (start_keeps_throttle (srv y) w) as [H1 H2].
    destruct (start_camera_detection (srv y) w) as [ok s']. simpl in *.
    rewrite H1, H2. auto.
  - destruct (stop_keeps_throttle (srv y)) as [-> ->]. auto.
  - destruct (live_loops y) as [|n]; [auto|].
    pose proof (iteration_keeps_throttle (srv y) r Hn Hc) as H.
    destruct (detection_iteration (srv y) r) as [s' [| |]]; exact H.
  - unfold camera_lost. destruct (cap (srv y)); auto.
Qed.

(** X12. In every state the service reaches after construction, under
    any schedule of start and stop requests, loop iterations and camera
    failures, the throttling factor is 3 and the frame counter lies between
    0 and 2. *)
Theorem throttle_invariant (p fp : Z) (now : string) (t : Q) (ops : list Op) :
  process_every_n_frames (srv (run (boot p fp now t) ops)) = 3 /\
  0 <= frame_skip_count (srv (run (boot p fp now t) ops)) < 3.
Proof.
  assert (Hgen : forall (l : list Op) (y : System),
             process_every_n_frames (srv y) = 3 ->
             0 <= frame_skip_count (srv y) < 3 ->
             process_every_n_frames (srv (run y l)) = 3 /\
             0 <= frame_skip_count (srv (run y l)) < 3).
  { induction l as [|o l IH]; intros y Hn Hc; [auto|].
    destruct (step_keeps_throttle y o Hn Hc) as [Hn' Hc'].
    exact (IH (step y o) Hn' Hc'). }
  apply Hgen; simpl; [reflexivity|lia].
Qed.

Lemma start_equipped (s : Server) (w : StartEnv) :
  equipped s -> equipped (snd (start_camera_detection s w)).
Proof.
  intros Heq. pose proof (start_flag s w) as Hflag. revert Hflag.
  unfold start_camera_detection, initialize_face_cascade, initialize_camera, release_cap.
  destruct (detection_running s) eqn:Hrun; [intros _; exact Heq|].
  destruct (load_cascade w) as [|c0]; simpl; [intros Hflag H; simpl in *; congruence|].
  destruct (cascade_empty c0) eqn:Hc0; simpl; [intros Hflag H; simpl in *; congruence|].
  destruct (open_camera w) as [|c ok]; simpl.
  - intros Hflag H. simpl in *. congruence.
  - destruct (is_opened c); simpl; [|intros Hflag H; simpl in *; congruence].
    destruct ok; simpl; [|intros Hflag H; simpl in *; congruence].
    intros _ _. simpl. split; [|discriminate].
    exists c0. split; [|exact Hc0]. destruct (cap s); reflexivity.
Qed.

Lemma iteration_equipped (s : Server) (r : ReadOutcome) :
  equipped s -> equipped (fst (detection_iteration s r)).
Proof.
  unfold detection_iteration.
  destruct (detection_running s) eqn:Hrun; simpl; [|exact id].
  destruct (frame_skip_count s + 1 <? process_every_n_frames s); simpl; [exact id|].
  destruct (cap s) as [c|] eqn:Hcap; simpl; [|exact id].
  destruct (is_opened c); simpl; [|exact id].
  destruct r as [m| |frame]; simpl; try exact id.
  destruct (process_frame_writes
              (set_frame_skip_count 0 (set_frame_skip_count (frame_skip_count s + 1) s))
              frame) as (rd & t & ->).
  exact id.
Qed.

Lemma step_equipped (y : System) (o : Op) :
  equipped (srv y) -> equipped (srv (step y o)).
Proof.
  intros Heq. destruct o as [w| |r|]; simpl.
  - pose proof (start_equipped (srv y) w Heq) as H.
    destruct (start_camera_detection (srv y) w) as [ok s']. exact H.
  - intros Hrun. destruct (stop_fields (srv y)) as [Hidle _]. congruence.
  - destruct (live_loops y) as [|n]; [exact Heq|].
    pose proof (iteration_equipped (srv y) r Heq) as H.
    destruct (detection_iteration (srv y) r) as [s' [| |]]; exact H.
  - unfold camera_lost. destruct (cap (srv y)) eqn:Hcap; [|exact Heq].
    intros Hrun. destruct (Heq Hrun) as [Hc _]. split; [exact Hc|discriminate].
Qed.

(** X13. In every state the service reaches after construction, whenever
    [detection_running] is set, a cascade that is not empty is loaded and a
    camera handle is held: the loop of a running service never meets a
    missing cascade. *)
Theorem running_is_equipped (p fp : Z) (now : string) (t : Q) (ops : list Op) :
  equipped (srv (run (boot p fp now t) ops)).
Proof.
  assert (Hgen : forall (l : list Op) (y : System),
             equipped (srv y) -> equipped (srv (run y l))).
  { induction l as [|o l IH]; intros y Hy; [exact Hy|].
    exact (IH (step y o) (step_equipped y o Hy)). }
  apply Hgen. intros Hrun. discriminate Hrun.
Qed.

(** ** run_server and main *)

Lemma prefix_app (n h : string) :
  String.prefix n h = true <-> exists b : string, h = (n ++ b)%string.
Proof.
  revert h. induction n as [|c n IH]; intros h.
  - split; [intros _; exists h; reflexivity|intros _; destruct h; reflexivity].
  - destruct h as [|c' h]; simpl;
      [split; [discriminate|intros [b Hb]; discriminate]|].
    destruct (ascii_dec c c') as [->|Hne].
    + rewrite IH. split; intros [b Hb]; exists b.
      * exact (f_equal (String c') Hb).
      * change (String c' h = String c' (n ++ b)%string) in Hb. congruence.
    + split; [discriminate|]. intros [b Hb].
      change (String c' h = String c (n ++ b)%string) in Hb. congruence.
Qed.

(** [contains] is the substring test. *)
Lemma contains_app (n h : string) :
  contains n h = true <-> exists a b : string, h = (a ++ n ++ b)%string.
Proof.
  induction h as [|c h IH].
  - change (contains n EmptyString) with (String.prefix n EmptyString || false)%bool.
    rewrite orb_false_r, prefix_app. split.
    + intros [b Hb]. exists EmptyString, b. exact Hb.
    + intros (a & b & Hab). destruct a as [|c a]; [exists b; exact Hab|discriminate].
  - change (contains n (String c h))
      with (String.prefix n (String c h) || contains n h)%bool.
    rewrite orb_true_iff, prefix_app, IH. split.
    + intros [[b Hb]|(a & b & Hab)].
      * exists EmptyString, b. exact Hb.
      * exists (String c a), b. exact (f_equal (String c) Hab).
    + intros (a & b & Hab). destruct a as [|c' a].
      * left. exists b. exact Hab.
      * right. exists a, b.
        change (String c h = String c' (a ++ n ++ b)%string) in Hab. congruence.
Qed.

(** X14. [run_server] hands the fallback port to [app.run] exactly when
    the primary call raises an [OSError] whose text contains "Address
    already in use" as a substring.  In every other case only the primary
    port is tried and the primary call's own outcome, serving or the
    exception it raised, is the outcome of [run_server]. *)
Theorem run_server_fallback_iff (s : Server) (app_run : Z -> AppRun) :
  (tried (run_server s app_run) = [port s; fallback_port s] <->
   primary_in_use s app_run) /\
  (~ primary_in_use s app_run ->
   tried (run_server s app_run) = [port s] /\
   outcome (run_server s app_run) = app_run (port s)).
Proof.
  unfold run_server, primary_in_use.
  destruct (app_run (port s)) as [|e] eqn:Hprimary.
  - split; [split|].
    + discriminate.
    + intros (e & a & b & H & _). discriminate H.
    + auto.
  - destruct (exc_kind e) eqn:Hkind.
    + destruct (contains address_in_use (exc_str e)) eqn:Htext.
      * apply contains_app in Htext as (a & b & Hab).
        split; [split|].
        -- intros _. exists e, a, b. auto.
        -- intros _. destruct (app_run (fallback_port s)); reflexivity.
        -- intros Hnot. exfalso. apply Hnot. exists e, a, b. auto.
      * split; [split|].
        -- discriminate.
        -- intros (e' & a & b & [= <-] & _ & Hab).
           assert (contains address_in_use (exc_str e) = true)
             by (apply contains_app; exists a, b; exact Hab).
           congruence.
        -- auto.
    + split; [split|].
      * discriminate.
      * intros (e' & a & b & [= <-] & H & _). congruence.
      * auto.
    + split; [split|].
      * discriminate.
      * intros (e' & a & b & [= <-] & H & _). congruence.
      * auto.
Qed.

(** X15. [main] shuts the service down on every path: when it ends,
    [detection_running] is false and no camera handle is held.  No
    [Exception] leaves [main], not even one that [run_server] re-raises
    from the fallback call; only an exception outside the [Exception]
    hierarchy that is not a [KeyboardInterrupt] does, such as the
    [SystemExit] of [app.run] on a port in use. *)
Theorem main_always_shuts_down (now : string) (t : Q) (w : StartEnv)
    (during : list Op) (app_run : Z -> AppRun) (keyboard_interrupt : PyExc -> bool) :
  let res := main now t w during app_run keyboard_interrupt in
  detection_running (srv (fst res)) = false /\
  cap (srv (fst res)) = None /\
  (forall e : PyExc, snd res = MainPropagates e ->
     exc_kind e = KBaseException /\ keyboard_interrupt e = false /\
     outcome (run_server (srv (step (boot 5001 5002 now t) (OpStart w))) app_run) =
       Raises e).
Proof.
  unfold main, shutdown.
  set (y1 := step (boot 5001 5002 now t) (OpStart w)).
  set (y2 := run y1 during).
  destruct (stop_fields (srv y2)) as [Hidle Hnone].
  destruct (outcome (run_server (srv y1) app_run)) as [|e] eqn:Hout; simpl.
  - split; [exact Hidle|]. split; [exact Hnone|]. intros e H. discriminate H.
  - destruct (exc_kind e) eqn:Hkind; simpl.
    + split; [exact Hidle|]. split; [exact Hnone|]. intros e' H. discriminate H.
    + split; [exact Hidle|]. split; [exact Hnone|]. intros e' H. discriminate H.
    + destruct (keyboard_interrupt e) eqn:Hkbd; simpl.
      * split; [exact Hidle|]. split; [exact Hnone|]. intros e' H. discriminate H.
      * split; [exact Hidle|]. split; [exact Hnone|].
        intros e' [= <-]. auto.
Qed.

(** ** Well-formed readings and the choice of the largest face *)

(** X16. Every reading that is ever current has the four entries
    [emotion] (a string), [confidence], [timestamp] (a string) and
    [faces_detected] (a non-negative integer); and a reading with an
    [error] entry has the emotion [error], no faces and no scores. *)
Theorem readings_are_well_formed (r : Reading) :
  ever_current r ->
  (exists (e : string) (c : PyVal) (ts : string) (n : Z),
     assoc "emotion" r = Some (VStr e) /\
     assoc "confidence" r = Some c /\
     assoc "timestamp" r = Some (VStr ts) /\
     assoc "faces_detected" r = Some (VInt n) /\ 0 <= n) /\
  (assoc "error" r <> None ->
   assoc "emotion" r = Some (VStr "error") /\
   assoc "faces_detected" r = Some (VInt 0) /\
   assoc "emotion_scores" r = None).
Proof.
  intros Hr. apply ever_current_shape in Hr.
  destruct Hr as [[now ->]|[[now ->]|[(now & m & ->)|(l & c & now & n & sc & ->)]]].
  - split; [exists "unknown", (VFloat 0), now, 0; simpl; repeat split; lia|].
    intros H. exfalso. apply H. reflexivity.
  - split; [exists "no_face", (VFloat 0), now, 0; simpl; repeat split; lia|].
    intros H. exfalso. apply H. reflexivity.
  - split; [exists "error", (VFloat 0), now, 0; simpl; repeat split; lia|].
    intros _. simpl. auto.
  - split; [exists l, c, now, (Z.of_nat (S n)); simpl; repeat split; lia|].
    intros H. exfalso. apply H. reflexivity.
Qed.

Lemma readings_are_well_formed_witness :
  (exists (e : string) (c : PyVal) (ts : string) (n : Z),
     assoc "emotion" (placeholder "2024-01-01T00:00:00") = Some (VStr e) /\
     assoc "confidence" (placeholder "2024-01-01T00:00:00") = Some c /\
     assoc "timestamp" (placeholder "2024-01-01T00:00:00") = Some (VStr ts) /\
     assoc "faces_detected" (placeholder "2024-01-01T00:00:00") = Some (VInt n) /\ 0 <= n) /\
  (assoc "error" (placeholder "2024-01-01T00:00:00") <> None ->
   assoc "emotion" (placeholder "2024-01-01T00:00:00") = Some (VStr "error") /\
   assoc "faces_detected" (placeholder "2024-01-01T00:00:00") = Some (VInt 0) /\
   assoc "emotion_scores" (placeholder "2024-01-01T00:00:00") = None).
Proof.
  apply (readings_are_well_formed (placeholder "2024-01-01T00:00:00")).
  exists 5001, 5002, "2024-01-01T00:00:00", 0%Q, []. reflexivity.
Defined.

Lemma first_largest_unique {A : Type} (key : A -> Z) (l : list A)
    (i j : nat) (m m' : A) :
  first_largest key l i m -> first_largest key l j m' -> i = j /\ m = m'.
Proof.
  intros [Hi Hmax] [Hj Hmax'].
  assert (Hij : i = j).
  { destruct (Nat.lt_trichotomy i j) as [Hlt|[Heq|Hgt]]; [|exact Heq|].
    - destruct (Hmax' i m Hi) as [_ Hstrict]. specialize (Hstrict Hlt).
      destruct (Hmax j m' Hj) as [Hle _]. lia.
    - destruct (Hmax j m' Hj) as [_ Hstrict]. specialize (Hstrict Hgt).
      destruct (Hmax' i m Hi) as [Hle _]. lia. }
  split; [exact Hij|]. subst j. congruence.
Qed.

(** X17. Python's [max] with a key is characterised by its result: the
    call returns [m] exactly when [m] is the first element of maximal key,
    and such an element exists, at a single position, exactly when the list
    is not empty. *)
Theorem py_max_characterised {A : Type} (key : A -> Z) (l : list A) (m : A) :
  (py_max key l = Some m <-> exists i : nat, first_largest key l i m) /\
  (py_max key l = None <-> l = []).
Proof.
  split.
  - split; [apply py_max_first_largest|].
    intros [i Hi]. destruct l as [|x l]; [destruct Hi as [Hi _]; discriminate Hi|].
    destruct (py_max key (x :: l)) as [m0|] eqn:Hmax; [|discriminate Hmax].
    destruct (py_max_first_largest key (x :: l) m0 Hmax) as [i0 Hi0].
    destruct (first_largest_unique key (x :: l) i0 i m0 m Hi0 Hi) as [_ ->].
    reflexivity.
  - destruct l; simpl; split; intros H; try reflexivity; discriminate H.
Qed.

(** ** The store: reads are current, and the lock is always given back *)

Module StoreOrder.
Import Store StoreFacts.
Local Open Scope nat_scope.

Lemma readers_set_thread (s : State) (i : nat) (t : Thread) :
  inv_readers s ->
  (forall (p : nat) (out : Dict), t = ReadCopy p out -> p = cur s) ->
  inv_readers (set_thread i t s).
Proof.
  intros Hinv Ht j p out Hj. simpl in *.
  apply list_lookup_insert_Some in Hj as [(_ & Heq & _)|[_ Hj]].
  - exact (Ht p out Heq).
  - exact (Hinv j p out Hj).
Qed.

(** Every step keeps readers on the current object. *)
Lemma step_readers (s : State) (i : nat) (c : Choice) :
  inv_lock s -> inv_readers s -> inv_readers (step s i c).
Proof.
  intros Hlock Hinv. unfold step.
  destruct (threads s !! i) as [t|] eqn:Hi; [|exact Hinv].
  destruct t as [| | |p out|d|d n|].
  - destruct c; [| |exact Hinv]; apply readers_set_thread; try exact Hinv; discriminate.
  - destruct (lock s); [exact Hinv|].
    change (inv_readers (set_thread i ReadLocked s)).
    apply readers_set_thread; [exact Hinv|discriminate].
  - apply readers_set_thread; [exact Hinv|]. intros p out [= <- _]. reflexivity.
  - destruct (heap s !! p) as [d|]; [|exact Hinv].
    destruct (d !! length out).
    + apply readers_set_thread; [exact Hinv|]. intros p' out' [= <- _].
      exact (Hinv i p out Hi).
    + change (inv_readers (set_thread i Unlock s)).
      apply readers_set_thread; [exact Hinv|discriminate].
  - destruct (lock s); [exact Hinv|].
    change (inv_readers (set_thread i (WriteBuild d 0) s)).
    apply readers_set_thread; [exact Hinv|discriminate].
  - destruct (n <? length d).
    + apply readers_set_thread; [exact Hinv|discriminate].
    + intros j p out Hj. simpl in Hj. exfalso.
      apply list_lookup_insert_Some in Hj as [(_ & Heq & _)|[Hne Hj]]; [discriminate|].
      pose proof (Hlock i _ Hi eq_refl) as H1.
      pose proof (Hlock j _ Hj eq_refl) as H2.
      congruence.
  - change (inv_readers (set_thread i Idle s)).
    apply readers_set_thread; [exact Hinv|discriminate].
Qed.

Lemma holder_set_thread (s : State) (j : nat) (t t' : Thread) :
  inv_holder s -> threads s !! j = Some t -> in_section t' = in_section t ->
  inv_holder (set_thread j t' s).
Proof.
  intros Hinv Hj Hsec k Hk. simpl in *.
  destruct (Hinv k Hk) as (t0 & Ht0 & Hin).
  destruct (decide (j = k)) as [->|Hne].
  - exists t'. split; [|congruence].
    apply list_lookup_insert_eq. eapply lookup_lt_Some, Hj.
  - exists t0. split; [|exact Hin]. rewrite list_lookup_insert_ne by exact Hne.
    exact Ht0.
Qed.

Lemma holder_acquire (s : State) (i : nat) (t t' : Thread) :
  threads s !! i = Some t -> in_section t' = true ->
  inv_holder (set_lock (Some i) (set_thread i t' s)).
Proof.
  intros Hi Hsec k [= <-]. simpl. exists t'. split; [|exact Hsec].
  apply list_lookup_insert_eq. eapply lookup_lt_Some, Hi.
Qed.

(** Every step keeps the lock with a thread inside a section. *)
Lemma step_holder (s : State) (i : nat) (c : Choice) :
  inv_holder s -> inv_holder (step s i c).
Proof.
  intros Hinv. unfold step.
  destruct (threads s !! i) as [t|] eqn:Hi; [|exact Hinv].
  destruct t as [| | |p out|d|d n|].
  - destruct c; [| |exact Hinv]; eapply holder_set_thread; eauto.
  - destruct (lock s) eqn:Hl; [exact Hinv|]. eapply holder_acquire; eauto.
  - eapply holder_set_thread; eauto.
  - destruct (heap s !! p) as [d|]; [|exact Hinv].
    destruct (d !! length out).
    + eapply holder_set_thread; eauto.
    + change (inv_holder (set_thread i Unlock s)). eapply holder_set_thread; eauto.
  - destruct (lock s) eqn:Hl; [exact Hinv|]. eapply holder_acquire; eauto.
  - destruct (n <? length d).
    + eapply holder_set_thread; eauto.
    + change (inv_holder (set_thread i Unlock s)). eapply holder_set_thread; eauto.
  - intros k Hk. discriminate Hk.
Qed.

Lemma exec_order (r0 : Reading) (n : nat) (sched : list (nat * Choice)) :
  inv_readers (exec (init r0 n) sched) /\ inv_holder (exec (init r0 n) sched).
Proof.
  induction sched as [|[i c] sched [IHr IHh]] using rev_ind.
  - split.
    + intros i p out Hi. simpl in Hi. apply lookup_replicate_1 in Hi as [Hi _].
      discriminate Hi.
    + intros i Hi. discriminate Hi.
  - rewrite exec_snoc. split; [|apply step_holder, IHh].
    apply step_readers; [|exact IHr].
    exact (proj2 (exec_inv r0 n sched)).
Qed.

(** A step adds at most one response, and only when a reader has finished
    copying. *)
Lemma step_responds (s : State) (i : nat) (c : Choice) (r : Reading) :
  responses (step s i c) = (responses s ++ [r])%list ->
  exists (p : nat) (d : Reading),
    threads s !! i = Some (ReadCopy p r) /\ heap s !! p = Some d /\
    d !! length r = None /\ step s i c = respond r (set_thread i Unlock s).
Proof.
  assert (Hno : responses s = (responses s ++ [r])%list -> False).
  { intros H. apply (f_equal length) in H. rewrite length_app in H. simpl in H. lia. }
  unfold step.
  destruct (threads s !! i) as [t|] eqn:Hi; [|intros H; destruct (Hno H)].
  destruct t as [| | |p out|d|d n|]; simpl.
  - destruct c; intros H; destruct (Hno H).
  - destruct (lock s); intros H; destruct (Hno H).
  - intros H; destruct (Hno H).
  - destruct (heap s !! p) as [d|] eqn:Hp; [|intros H; destruct (Hno H)].
    destruct (d !! length out) eqn:Hitem; [intros H; destruct (Hno H)|].
    simpl. intros H. apply app_inv_head in H. injection H as ->.
    exists p, d. auto.
  - destruct (lock s); intros H; destruct (Hno H).
  - destruct (n <? length d); intros H; destruct (Hno H).
  - intros H; destruct (Hno H).
Qed.

(** X18. Whenever a step of any schedule completes the serialisation of
    a reader's body, that reader holds the data lock and the body is the
    reading the store holds at that moment, before and after the step:
    [get_emotion] serialises the reading that is current while it is inside
    the [with] block.  (The handler hands the body out after leaving the
    block; by then a writer may have stored a newer reading.) *)
Theorem serialised_body_is_current
    (r0 : Reading) (n : nat) (sched : list (nat * Choice))
    (i : nat) (c : Choice) (r : Reading) :
  let s := exec (init r0 n) sched in
  responses (step s i c) = (responses s ++ [r])%list ->
  lock s = Some i /\ lock (step s i c) = Some i /\
  current s = Some r /\ current (step s i c) = Some r.
Proof.
  intros s Hresp.
  destruct (exec_inv r0 n sched) as [Hd Hl]. fold s in Hd, Hl.
  destruct (exec_order r0 n sched) as [Hr _]. fold s in Hr.
  destruct (step_responds s i c r Hresp) as (p & d & Hi & Hp & Hend & ->).
  pose proof (Hr i p r Hi) as Hcur.
  pose proof (Hl i _ Hi eq_refl) as Hheld.
  destruct (inv_threads _ _ _ Hd i _ Hi) as (d' & Hp' & Hout).
  assert (d' = d) by congruence. subst d'.
  rewrite take_ge in Hout by (apply lookup_ge_None_1, Hend). subst d.
  unfold current. simpl. rewrite <- Hcur. auto.
Qed.

Lemma serialised_body_is_current_witness :
  lock (exec (init (placeholder "t0") 2) sample_prefix) = Some 0 /\
  lock (step (exec (init (placeholder "t0") 2) sample_prefix) 0 Next) = Some 0 /\
  current (exec (init (placeholder "t0") 2) sample_prefix) = Some (placeholder "t0") /\
  current (step (exec (init (placeholder "t0") 2) sample_prefix) 0 Next) =
    Some (placeholder "t0").
Proof.
  apply (serialised_body_is_current (placeholder "t0") 2 sample_prefix 0 Next
           (placeholder "t0")).
  vm_compute. reflexivity.
Defined.

Lemma holder_progress (req : Reading -> Prop) (r0 : Reading) (s : State)
    (i : nat) (t : Thread) :
  inv_data req r0 s ->
  threads s !! i = Some t -> in_section t = true -> lock s = Some i ->
  lock (step s i Next) = None \/
  (exists t' : Thread,
     threads (step s i Next) !! i = Some t' /\ in_section t' = true /\
     lock (step s i Next) = Some i /\
     steps_left (step s i Next) t' < steps_left s t).
Proof.
  intros Hd Hi Hsec Hl. unfold step. rewrite Hi.
  assert (Hlen : i < length (threads s)) by (eapply lookup_lt_Some, Hi).
  destruct t as [| | |p out|d|d n|]; try discriminate Hsec.
  - right. exists (ReadCopy (cur s) []). simpl.
    rewrite list_lookup_insert_eq by exact Hlen. repeat split; auto. lia.
  - destruct (inv_threads _ _ _ Hd i _ Hi) as (d & Hp & Hout). rewrite Hp.
    destruct (d !! length out) as [item|] eqn:Hitem.
    + right. exists (ReadCopy p (out ++ [item])). simpl.
      rewrite list_lookup_insert_eq by exact Hlen. rewrite Hp. simpl.
      rewrite length_app. simpl. apply lookup_lt_Some in Hitem.
      repeat split; auto. lia.
    + right. exists Unlock. simpl.
      rewrite list_lookup_insert_eq by exact Hlen. repeat split; auto. lia.
  - destruct (Nat.ltb_spec n (length d)) as [Hlt|Hge].
    + right. exists (WriteBuild d (S n)). simpl.
      rewrite list_lookup_insert_eq by exact Hlen. repeat split; auto. lia.
    + right. exists Unlock. simpl.
      rewrite list_lookup_insert_eq by exact Hlen. repeat split; auto. lia.
  - left. reflexivity.
Qed.

Lemma drive_releases (req : Reading -> Prop) (r0 : Reading) (i : nat) (m : nat) :
  forall (s : State) (t : Thread),
    inv_data req r0 s ->
    threads s !! i = Some t -> in_section t = true -> lock s = Some i ->
    steps_left s t <= m ->
    exists k : nat, k <= m /\ lock (drive s i k) = None.
Proof.
  induction m as [|m IH]; intros s t Hd Hi Hsec Hl Hm.
  - destruct t; try discriminate Hsec; simpl in Hm; lia.
  - destruct (holder_progress req r0 s i t Hd Hi Hsec Hl)
      as [Hfree|(t' & Hi' & Hsec' & Hl' & Hless)].
    + exists 1. split; [lia|exact Hfree].
    + destruct (IH (step s i Next) t') as (k & Hk & Hfree); try assumption.
      * apply step_data; [exact Hd|]. intros d H. discriminate H.
      * lia.
      * exists (S k). split; [lia|]. unfold drive in *.
        rewrite Nat.iter_succ_r. exact Hfree.
Qed.

(** X19. The data lock is always given back: in any state reached by any
    schedule, the thread that holds the lock is inside a critical section
    and, scheduled on its own, leaves it and frees the lock within the
    number of steps left for its dictionary. *)
Theorem lock_is_released
    (r0 : Reading) (n : nat) (sched : list (nat * Choice)) (i : nat) :
  let s := exec (init r0 n) sched in
  lock s = Some i ->
  exists (t : Thread) (k : nat),
    threads s !! i = Some t /\ in_section t = true /\
    k <= steps_left s t /\ lock (drive s i k) = None.
Proof.
  intros s Hl.
  destruct (exec_inv r0 n sched) as [Hd _]. fold s in Hd.
  destruct (exec_order r0 n sched) as [_ Hh]. fold s in Hh.
  destruct (Hh i Hl) as (t & Hi & Hsec).
  destruct (drive_releases _ r0 i (steps_left s t) s t Hd Hi Hsec Hl (Nat.le_refl _))
    as (k & Hk & Hfree).
  exists t, k. auto.
Qed.

Lemma lock_is_released_witness :
  exists (t : Thread) (k : nat),
    threads (exec (init (placeholder "t0") 2) sample_prefix) !! 0 = Some t /\
    in_section t = true /\
    k <= steps_left (exec (init (placeholder "t0") 2) sample_prefix) t /\
    lock (drive (exec (init (placeholder "t0") 2) sample_prefix) 0 k) = None.
Proof.
  apply (lock_is_released (placeholder "t0") 2 sample_prefix 0).
  vm_compute. reflexivity.
Defined.
End StoreOrder.

(** ** More on the loop and on the classifier call *)

Lemma armed_loop (reads : list ReadOutcome) :
  forall s : Server,
    armed s ->
    snd (detection_loop s reads) = None /\ armed (fst (detection_loop s reads)).
Proof.
  induction reads as [|r reads IH]; intros s Harmed; [simpl; auto|].
  destruct (armed_iteration s r Harmed) as (s' & Hit & Harmed').
  simpl. rewrite Hit. exact (IH s' Harmed').
Qed.

(** X20. While [detection_running] is set, the camera is open and a
    cascade is loaded, nothing the camera or the collaborators do makes the
    loop leave: after any finite sequence of read failures, exceptions and
    frames the loop is still running and still in that condition.  And the
    loop leaves through its test exactly when the flag is already clear at
    the first test. *)
Theorem loop_survives_all_frames (s : Server) (reads : list ReadOutcome) :
  (armed s ->
   snd (detection_loop s reads) = None /\ armed (fst (detection_loop s reads))) /\
  (snd (detection_loop s reads) = Some Exit <->
   detection_running s = false /\ reads <> []).
Proof.
  split; [apply armed_loop|].
  revert s. induction reads as [|r reads IH]; intros s.
  - simpl. split; [discriminate|]. intros [_ H]. contradiction.
  - simpl. destruct (detection_running s) eqn:Hrun.
    + split; [|intros [H _]; discriminate H].
      unfold detection_iteration. rewrite Hrun. simpl.
      destruct (frame_skip_count s + 1 <? process_every_n_frames s).
      * rewrite IH. simpl. rewrite Hrun. intros [H _]. discriminate H.
      * simpl. destruct (cap s) as [c|]; [|discriminate].
        destruct (is_opened c); simpl; [|discriminate].
        assert (Hkeep : forall s0 : Server, detection_running s0 = true ->
                  snd (detection_loop s0 reads) = Some Exit -> False).
        { intros s0 H0 H. apply IH in H as [H _]. congruence. }
        destruct r as [m| |frame].
        -- intros H. exfalso. eapply Hkeep; [|exact H]. exact Hrun.
        -- intros H. exfalso. eapply Hkeep; [|exact H]. exact Hrun.
        -- destruct (process_frame_writes
                       (set_frame_skip_count 0
                          (set_frame_skip_count (frame_skip_count s + 1) s)) frame)
             as (rd & t & ->).
           intros H. exfalso. eapply Hkeep; [|exact H]. exact Hrun.
    + unfold detection_iteration. rewrite Hrun. simpl.
      split; [intros _; split; [reflexivity|discriminate]|reflexivity].
Qed.

Lemma start_after_stop_armed (s : Server) (w : StartEnv) :
  cascade_loads (load_cascade w) = true ->
  camera_opens (open_camera w) = true ->
  fst (start_camera_detection (stop_camera_detection s) w) = true /\
  armed (snd (start_camera_detection (stop_camera_detection s) w)).
Proof.
  intros Hcasc Hcam. destruct (stop_fields s) as [Hidle Hnone].
  unfold start_camera_detection, initialize_face_cascade, initialize_camera, release_cap.
  rewrite Hidle.
  destruct (load_cascade w) as [|c0]; [discriminate|].
  simpl in Hcasc. destruct (cascade_empty c0); [discriminate|]. simpl.
  rewrite Hnone.
  destruct (open_camera w) as [|c ok]; [discriminate|].
  simpl in Hcam. apply andb_true_iff in Hcam as [Hc Hset].
  rewrite Hc, Hset. simpl. split; [reflexivity|].
  unfold armed, camera_status. simpl. rewrite Hc. repeat split. discriminate.
Qed.

(** X21. A stop does not wait for the detection thread.  When a stop is
    followed by a successful start before the old thread has run its next
    loop test, the old thread stays alive beside the new one: the number of
    live loops has grown by one, and a further iteration of any of them
    continues instead of leaving. *)
Theorem stop_does_not_join (y : System) (w : StartEnv) (r : ReadOutcome) :
  cascade_loads (load_cascade w) = true ->
  camera_opens (open_camera w) = true ->
  let y' := run y [OpStop; OpStart w] in
  detection_running (srv y') = true /\
  live_loops y' = S (live_loops y) /\
  live_loops (step y' (OpIterate r)) = S (live_loops y).
Proof.
  intros Hcasc Hcam.
  destruct (start_after_stop_armed (srv y) w Hcasc Hcam) as [Hok Harmed].
  destruct (stop_fields (srv y)) as [Hidle _].
  unfold run. simpl. rewrite Hidle.
  destruct (start_camera_detection (stop_camera_detection (srv y)) w) as [ok s'].
  simpl in Hok, Harmed. subst ok. simpl.
  split; [exact (proj1 Harmed)|]. split; [reflexivity|].
  destruct (armed_iteration s' r Harmed) as (s'' & -> & _). reflexivity.
Qed.

Lemma stop_does_not_join_witness :
  let y' := run sample_system [OpStop; OpStart good_start] in
  detection_running (srv y') = true /\
  live_loops y' = S (live_loops sample_system) /\
  live_loops (step y' (OpIterate ReadFailed)) = S (live_loops sample_system).
Proof.
  apply (stop_does_not_join sample_system good_start ReadFailed); reflexivity.
Defined.

(** X22. The classifier is consulted for the selected face only: two
    frames that agree on the grey conversion, the detector's answer and the
    clock, and on the classifier's answer for the largest face, leave the
    service in the same state, however the classifier would answer for any
    other region. *)
Theorem only_largest_face_is_classified (s : Server) (f f' : Frame) :
  cvt_gray f = cvt_gray f' ->
  detect f = detect f' ->
  now f = now f' ->
  clock f = clock f' ->
  (forall (faces : list Region) (largest : Region),
     detect f = Ok faces -> py_max face_area faces = Some largest ->
     analyze f largest = analyze f' largest) ->
  process_frame s f = process_frame s f'.
Proof.
  intros Hgray Hdet Hnow Hclock Han.
  unfold process_frame, process_frame_try.
  rewrite <- Hgray, <- Hdet, <- Hnow, <- Hclock.
  destruct (cvt_gray f); [|reflexivity].
  destruct (face_cascade s); [|reflexivity].
  destruct (detect f) as [faces|]; [|reflexivity].
  destruct (length faces =? 0)%nat; [reflexivity|].
  destruct (py_max face_area faces) as [largest|] eqn:Hmax; [|reflexivity].
  rewrite <- (Han faces largest eq_refl Hmax). reflexivity.
Qed.

Lemma only_largest_face_is_classified_witness :
  process_frame sample_running happy_frame =
  process_frame sample_running happy_frame_variant.
Proof.
  apply (only_largest_face_is_classified sample_running happy_frame happy_frame_variant);
    try reflexivity.
  intros faces largest [= <-] [= <-]. reflexivity.
Defined.
